(** * RL78 libgcc multiply helpers and two testsuite fixtures

    Shallow embedding of

    - [libgcc/config/rl78/mulsi3.S]: [___mulsi3] (32x32=32 multiply) and
      [___mulhi3] (16x16=16 multiply), written for the RL78 with its four
      register banks;
    - [gcc.target/arm/neon-vshl-imm-1.c]: the function [f1];
    - the SH fixture for PR target/50749: the function [test_func_00].

    Every instruction of the assembly file is a function on machine states;
    a routine is the composition of its instructions, a conditional branch is
    an [if] on the flag it tests, and a backward branch is a recursive call
    that consumes one unit of fuel. *)

From Stdlib Require Import ZArith Bool List Lia Zdiv Morphisms Setoid SpecFloat.
From Equations Require Import Equations.
Import ListNotations.
Local Open Scope Z_scope.

(* ===================================================================== *)
(** * The RL78 machine, as far as mulsi3.S uses it *)
(* ===================================================================== *)

Module RL78.

(** Register banks (selected by the RBS bits of the PSW) and the four
    16-bit register pairs of a bank. *)
Inductive rb : Set := RB0 | RB1 | RB2 | RB3.
Inductive rp : Set := AX | BC | DE | HL.

Definition rb_eqb (a b : rb) : bool :=
  match a, b with
  | RB0, RB0 | RB1, RB1 | RB2, RB2 | RB3, RB3 => true
  | _, _ => false
  end.

Definition rp_eqb (a b : rp) : bool :=
  match a, b with
  | AX, AX | BC, BC | DE, DE | HL, HL => true
  | _, _ => false
  end.

(** The machine state.  [REG b r] is register pair [r] of bank [b]; [CY] and
    [ZF] are the carry and zero flags of the PSW (the auxiliary carry is
    written by the arithmetic instructions but read by none of this file, and
    is left out); [MEM] is the byte memory of the 64K page the stack pointer
    addresses.  The register file is kept apart from [MEM]: the stack is
    taken not to overlap the memory-mapped registers. *)
Record state : Type := mkState {
  RBS : rb;
  REG : rb -> rp -> Z;
  CY  : bool;
  ZF  : bool;
  SP  : Z;
  MEM : Z -> Z
}.

(** ** 16-bit words and bytes *)

Definition w16 (z : Z) : Z := z mod 65536.

Definition load8 (m : Z -> Z) (a : Z) : Z := m a mod 256.

Definition store8 (m : Z -> Z) (a v : Z) : Z -> Z :=
  fun a' => if a' =? a then v mod 256 else m a'.

(** Little-endian word at stack-page address [a] (addresses wrap at 64K). *)
Definition load16 (m : Z -> Z) (a : Z) : Z :=
  load8 m (w16 a) + 256 * load8 m (w16 (a + 1)).

Definition store16 (m : Z -> Z) (a v : Z) : Z -> Z :=
  store8 (store8 m (w16 (a + 1)) (v / 256)) (w16 a) v.

(** ** Virtual registers *)

(** Modelled from the spec: the include file [vregs.h], which is not among
    the sources at hand, names words of the memory-mapped register file as
    short addresses.  mulsi3.S uses [r_0], [r_2], [r8], [r10] and [r16];
    [r18] is the word pushed and popped as BC of bank 2. *)
Inductive vreg : Set := r_0 | r_2 | r8 | r10 | r16 | r18.

(** Modelled from the spec: the bank a virtual register of [vregs.h] lies
    in.  [r_0], [r_2] are registers of bank 0, [r8], [r10] of bank 1 and
    [r16], [r18] of bank 2; the comments of mulsi3.S say as much: "result is
    in R8..R11", "R8 += AX * BC" over [sel rb1; addw ax, r_2], "BC.1" next
    to [movw r10, ax], "R16:R8 += op1L * op2L" over the loop that adds to
    AX under [sel rb2]. *)
Definition vreg_bank (v : vreg) : rb :=
  match v with
  | r_0 | r_2 => RB0
  | r8 | r10 => RB1
  | r16 | r18 => RB2
  end.

(** Modelled from the spec: the register pair a virtual register of
    [vregs.h] is; a bank holds AX in its first word and BC in its second. *)
Definition vreg_pair (v : vreg) : rp :=
  match v with
  | r_0 | r8 | r16 => AX
  | r_2 | r10 | r18 => BC
  end.

(** ** Operands *)

Inductive src : Type :=
| Imm (n : Z)            (* #word *)
| Reg (r : rp)           (* register pair of the selected bank *)
| Saddr (v : vreg)       (* saddrp *)
| SpRel (k : Z).         (* [sp+byte] *)

Inductive dst : Type :=
| ToReg (r : rp)
| ToSaddr (v : vreg).

Coercion Reg : rp >-> src.
Coercion Saddr : vreg >-> src.
Coercion ToReg : rp >-> dst.
Coercion ToSaddr : vreg >-> dst.

Definition read (o : src) (s : state) : Z :=
  match o with
  | Imm n => n
  | Reg r => REG s (RBS s) r
  | Saddr v => REG s (vreg_bank v) (vreg_pair v)
  | SpRel k => load16 (MEM s) (SP s + k)
  end.

Definition set_reg (b : rb) (r : rp) (v : Z) (s : state) : state :=
  mkState (RBS s)
          (fun b' r' => if rb_eqb b' b && rp_eqb r' r then v else REG s b' r')
          (CY s) (ZF s) (SP s) (MEM s).

Definition write (d : dst) (v : Z) (s : state) : state :=
  match d with
  | ToReg r => set_reg (RBS s) r v s
  | ToSaddr x => set_reg (vreg_bank x) (vreg_pair x) v s
  end.

Definition set_CY (c : bool) (s : state) : state :=
  mkState (RBS s) (REG s) c (ZF s) (SP s) (MEM s).

Definition set_flags (c z : bool) (s : state) : state :=
  mkState (RBS s) (REG s) c z (SP s) (MEM s).

Definition set_stack (sp : Z) (m : Z -> Z) (s : state) : state :=
  mkState (RBS s) (REG s) (CY s) (ZF s) sp m.

(** ** Instructions *)

(** [sel rbn]: select the register bank. *)
Definition sel (b : rb) (s : state) : state :=
  mkState b (REG s) (CY s) (ZF s) (SP s) (MEM s).

(** [movw dst, src]; no flag changes. *)
Definition movw (d : dst) (o : src) (s : state) : state := write d (read o s) s.

(** [clrw rp]. *)
Definition clrw (r : rp) (s : state) : state := write r 0 s.

(** [xchw ax, rp]. *)
Definition xchw (r1 r2 : rp) (s : state) : state :=
  let a := read r1 s in
  let b := read r2 s in
  write r2 a (write r1 b s).

(** [cmpw rp, src]: flags of [rp - src]; CY is the borrow. *)
Definition cmpw (r : rp) (o : src) (s : state) : state :=
  let a := read r s in
  let b := read o s in
  set_flags (a <? b) (w16 (a - b) =? 0) s.

(** [subw rp, src]. *)
Definition subw (r : rp) (o : src) (s : state) : state :=
  let a := read r s in
  let b := read o s in
  set_flags (a <? b) (w16 (a - b) =? 0) (write r (w16 (a - b)) s).

(** [addw rp, src]; CY is the carry out of bit 15. *)
Definition addw (r : rp) (o : src) (s : state) : state :=
  let a := read r s in
  let b := read o s in
  set_flags (65536 <=? a + b) (w16 (a + b) =? 0) (write r (w16 (a + b)) s).

(** [incw rp]; no flag changes. *)
Definition incw (r : rp) (s : state) : state := write r (w16 (read r s + 1)) s.

(** One step of [shrw rp, cnt]: CY <- bit 0, shift right, bit 15 <- 0. *)
Definition shrw1 (r : rp) (s : state) : state :=
  let a := read r s in
  set_CY (Z.testbit a 0) (write r (Z.shiftr a 1) s).

(** One step of [shlw rp, cnt]: CY <- bit 15, shift left, bit 0 <- 0. *)
Definition shlw1 (r : rp) (s : state) : state :=
  let a := read r s in
  set_CY (Z.testbit a 15) (write r (w16 (Z.shiftl a 1)) s).

(** One step of [rolwc rp, cnt]: rotate left through the carry. *)
Definition rolwc1 (r : rp) (s : state) : state :=
  let a := read r s in
  set_CY (Z.testbit a 15)
         (write r (Z.lor (w16 (Z.shiftl a 1)) (Z.b2z (CY s))) s).

Definition shrw (r : rp) (cnt : nat) : state -> state := Nat.iter cnt (shrw1 r).
Definition shlw (r : rp) (cnt : nat) : state -> state := Nat.iter cnt (shlw1 r).
Definition rolwc (r : rp) (cnt : nat) : state -> state := Nat.iter cnt (rolwc1 r).

(** [push rp]: (SP-1) <- high byte, (SP-2) <- low byte, SP <- SP-2. *)
Definition push (r : rp) (s : state) : state :=
  let v := read r s in
  set_stack (w16 (SP s - 2)) (store16 (MEM s) (SP s - 2) v) s.

(** [pop rp]: low byte <- (SP), high byte <- (SP+1), SP <- SP+2. *)
Definition pop (r : rp) (s : state) : state :=
  let v := load16 (MEM s) (SP s) in
  set_stack (w16 (SP s + 2)) (MEM s) (write r v s).

(** [call !addr16]: the 20-bit address [ra] of the next instruction goes to
    (SP-4), (SP-3), (SP-2); SP <- SP-4.  Control then passes to the callee,
    which is the function applied next. *)
Definition call (ra : Z) (s : state) : state :=
  let m1 := store8 (MEM s) (w16 (SP s - 2)) (ra / 65536) in
  set_stack (w16 (SP s - 4)) (store16 m1 (SP s - 4) ra) s.

(** [ret]: SP <- SP+4; control goes back to the caller. *)
Definition ret (s : state) : state :=
  set_stack (w16 (SP s + 4)) (MEM s) s.

(* ===================================================================== *)
(** * mulsi3.S *)
(* ===================================================================== *)

(** ** [.Lmul_hi]: R8 += AX * BC  (lines 175-200) *)

(** [.Lmul_hi_no_add: shlw bc, 1], falling into [.Lmul_hi_loop]. *)
Definition Lmul_hi_no_add (s : state) : state := shlw BC 1 s.

(** [.Lmul_hi_top: sel rb1; addw ax, r_2; sel rb0], falling into
    [.Lmul_hi_no_add]. *)
Definition Lmul_hi_top (s : state) : state :=
  let s := sel RB1 s in
  let s := addw AX r_2 s in
  let s := sel RB0 s in
  Lmul_hi_no_add s.

(** [.Lmul_hi_loop] ... [.Lmul_hi_done: ret].  One unit of fuel is one pass
    through the label [.Lmul_hi_loop]; the three backward branches
    ([bc $.Lmul_hi_top] twice, [bnz $.Lmul_hi_no_add]) are the recursive
    calls. *)
Fixpoint Lmul_hi_loop (fuel : nat) (s : state) : option state :=
  match fuel with
  | O => None
  | S fuel =>
    let s := shrw AX 1 s in
    if CY s then Lmul_hi_loop fuel (Lmul_hi_top s)        (* bc $.Lmul_hi_top *)
    else
      let s := cmpw AX (Imm 0) s in
      if ZF s then Some (ret s)                           (* bz $.Lmul_hi_done *)
      else
        let s := shlw BC 1 s in
        let s := shrw AX 1 s in
        if CY s then Lmul_hi_loop fuel (Lmul_hi_top s)    (* bc $.Lmul_hi_top *)
        else
          let s := cmpw AX (Imm 0) s in
          if negb (ZF s)
          then Lmul_hi_loop fuel (Lmul_hi_no_add s)       (* bnz $.Lmul_hi_no_add *)
          else Some (ret s)                               (* .Lmul_hi_done: ret *)
  end.

(** [.Lmul_hi: cmpw ax, bc; skc; xchw ax, bc; br $.Lmul_hi_loop]. *)
Definition Lmul_hi_order (s : state) : state :=
  let s := cmpw AX BC s in
  if CY s then s                                          (* skc *)
  else xchw AX BC s.

Definition Lmul_hi (fuel : nat) (s : state) : option state :=
  Lmul_hi_loop fuel (Lmul_hi_order s).

(** [___mulhi3]  (lines 167-173, falling into [.Lmul_hi]). *)
Definition ___mulhi3 (fuel : nat) (s : state) : option state :=
  let s := movw r8 (Imm 0) s in
  let s := movw AX (SpRel 6) s in
  let s := movw BC AX s in
  let s := movw AX (SpRel 4) s in
  Lmul_hi fuel s.

(** ** [___mulsi3]: 32x32=32 multiply  (lines 44-163) *)

Definition bind {A B : Type} (m : option A) (k : A -> option B) : option B :=
  match m with
  | Some a => k a
  | None => None
  end.

Notation "x <- m ;; k" := (bind m (fun x => k))
  (at level 61, m at next level, right associativity).

Section Mulsi3.

(** The addresses of the instructions after the two [call !.Lmul_hi], fixed
    when the file is linked. *)
Variables ret_1 ret_2 : Z.

(** One cross term, lines 59-75 with [oH = 14], [oL = 8] (op2H times op1L)
    and lines 77-93 with [oH = 10], [oL = 12] (op1H times op2L); the two
    copies differ in these stack offsets only. *)
Definition cross_term (ra oH oL : Z) (fuel : nat) (s : state) : option state :=
  let s := movw AX (SpRel oH) s in
  let s := cmpw AX (Imm 0) s in
  if ZF s then Some s                                     (* bz $1f *)
  else
    let s := cmpw AX (Imm 0xffff) s in
    if negb (ZF s) then                                   (* bnz $2f *)
      let s := movw BC AX s in
      let s := movw AX (SpRel oL) s in
      let s := cmpw AX (Imm 0) s in
      if ZF s then Some s                                 (* skz *)
      else Lmul_hi fuel (call ra s)                       (* call !.Lmul_hi *)
    else
      let s := movw AX (SpRel oL) s in
      let s := sel RB1 s in
      let s := subw AX r_0 s in
      let s := sel RB0 s in
      Some s.                                             (* br $1f *)

(** Lines 123-128 and 139-144: R16:R8 += op2, a 32-bit addition. *)
Definition Lmul_hisi_add (s : state) : state :=
  let s := sel RB1 s in
  let s := addw AX BC s in
  let s := sel RB2 s in
  let s := if CY s then incw AX s else s in               (* sknc; incw ax *)
  addw AX r_2 s.

(** [.Lmul_hisi_no_add] and [.Lmul_hisi_no_add2], lines 130-134 and 146-150:
    op2 <<= 1 over BC.0:BC.1, then test the multiplier. *)
Definition Lmul_hisi_no_add (s : state) : state :=
  let s := sel RB1 s in
  let s := shlw BC 1 s in
  let s := sel RB0 s in
  let s := rolwc BC 1 s in
  cmpw AX (Imm 0) s.

(** One of the two unrolled shift-and-add steps of the loop body. *)
Definition Lmul_hisi_step (s : state) : state :=
  let s := shrw AX 1 s in
  let s := if CY s then Lmul_hisi_add s else s in         (* bnc $.Lmul_hisi_no_add *)
  Lmul_hisi_no_add s.

(** [.Lmul_hisi_loop], lines 120-151; one unit of fuel is one pass through
    the label, that is up to two steps. *)
Fixpoint Lmul_hisi_loop (fuel : nat) (s : state) : option state :=
  match fuel with
  | O => None
  | S fuel =>
    let s := Lmul_hisi_step s in
    if ZF s then Some s                                   (* bz $.Lmul_hisi_done *)
    else
      let s := Lmul_hisi_step s in
      if negb (ZF s) then Lmul_hisi_loop fuel s           (* bnz $.Lmul_hisi_loop *)
      else Some s
  end.

(** Lines 106-114: load op1L and op2L and put the smaller one in AX. *)
Definition mulsi3_order (s : state) : state :=
  let s := movw AX (SpRel 8) s in
  let s := movw r10 AX s in
  let s := movw AX (SpRel 12) s in
  let s := cmpw AX r10 s in
  if CY s then s                                          (* bc $.Lmul_hisi_top *)
  else
    let s := movw BC r10 s in
    let s := movw r10 AX s in
    movw AX BC s.

(** [.Lmul_hisi_done], lines 153-163. *)
Definition Lmul_hisi_done (s : state) : state :=
  let s := movw AX r16 s in
  let s := movw r10 AX s in
  let s := sel RB2 s in
  let s := pop BC s in
  let s := pop AX s in
  let s := sel RB0 s in
  ret s.

(** Lines 50-57. *)
Definition mulsi3_prologue (s : state) : state :=
  let s := sel RB2 s in
  let s := push AX s in
  let s := push BC s in
  let s := sel RB0 s in
  let s := clrw AX s in
  let s := movw r8 AX s in
  movw r16 AX s.

(** Lines 95-98: the sum of the cross terms becomes the high word. *)
Definition mulsi3_cross_to_high (s : state) : state :=
  let s := movw AX r8 s in
  let s := movw r16 AX s in
  let s := clrw AX s in
  movw r8 AX s.

Definition ___mulsi3 (fuel : nat) (s : state) : option state :=
  let s := mulsi3_prologue s in
  s <- cross_term ret_1 14 8 fuel s ;;
  s <- cross_term ret_2 10 12 fuel s ;;
  let s := mulsi3_cross_to_high s in
  let s := mulsi3_order s in
  let s := movw BC (Imm 0) s in                           (* .Lmul_hisi_top *)
  s <- Lmul_hisi_loop fuel s ;;
  Some (Lmul_hisi_done s).

End Mulsi3.

(** The 32-bit value held in R8..R11 and the 32-bit argument at [sp+k]. *)
Definition R8_R11 (s : state) : Z := read r8 s + 65536 * read r10 s.
Definition arg16 (k : Z) (s : state) : Z := read (SpRel k) s.
Definition arg32 (k : Z) (s : state) : Z :=
  read (SpRel k) s + 65536 * read (SpRel (k + 2)) s.

(** ** Vocabulary of the statements *)

Definition w32 (z : Z) : Z := z mod 4294967296.

(** A 32-bit pattern read as a two's-complement number. *)
Definition signed32 (x : Z) : Z := if x <? 2147483648 then x else x - 4294967296.

(** [below sp n a]: [a] is one of the [n] bytes under the stack pointer. *)
Definition below (sp n a : Z) : Prop := exists i, 1 <= i <= n /\ a = w16 (sp - i).

(** Registers and stack pointer hold 16-bit words. *)
Definition wf_state (s : state) : Prop :=
  (forall b r, 0 <= REG s b r < 65536) /\ 0 <= SP s < 65536.

(** The 32-bit accumulator R16:R8 and the 32-bit multiplicand BC.0:BC.1 of
    [.Lmul_hisi_loop]. *)
Definition acc32 (s : state) : Z := REG s RB1 AX + 65536 * REG s RB2 AX.
Definition op32 (s : state) : Z := REG s RB1 BC + 65536 * REG s RB0 BC.

Definition hisi_wf (s : state) : Prop :=
  0 <= REG s RB1 AX < 65536 /\ 0 <= REG s RB2 AX < 65536 /\
  0 <= REG s RB1 BC < 65536 /\ 0 <= REG s RB0 BC < 65536.

(** The register pairs a piece of code may change. *)
Definition hi_scratch (b : rb) (r : rp) : bool :=
  match b, r with
  | RB0, AX | RB0, BC | RB1, AX => true
  | _, _ => false
  end.

Definition hisi_scratch (b : rb) (r : rp) : bool :=
  match b, r with
  | RB0, AX | RB0, BC | RB1, AX | RB1, BC | RB2, AX => true
  | _, _ => false
  end.

Definition prologue_scratch (b : rb) (r : rp) : bool :=
  match b, r with
  | RB0, AX | RB1, AX | RB2, AX => true
  | _, _ => false
  end.

Definition done_scratch (b : rb) (r : rp) : bool :=
  match b, r with
  | RB0, AX | RB1, BC | RB2, AX | RB2, BC => true
  | _, _ => false
  end.

Definition mulsi3_touched (b : rb) (r : rp) : bool :=
  match b, r with
  | RB0, AX | RB0, BC | RB1, AX | RB1, BC | RB2, AX | RB2, BC => true
  | _, _ => false
  end.

(** AX and BC of bank 0, the working registers, and R8..R11, the result. *)
Definition mulsi3_scratch (b : rb) (r : rp) : bool :=
  match b, r with
  | RB0, AX | RB0, BC | RB1, AX | RB1, BC => true
  | _, _ => false
  end.

(** R8..R11 alone. *)
Definition is_result (b : rb) (r : rp) : bool :=
  match b, r with
  | RB1, AX | RB1, BC => true
  | _, _ => false
  end.

(** No register pair outside R8..R11 differs between [s] and [s']. *)
Definition only_result_changed (s s' : state) : Prop :=
  forall b r, is_result b r = false -> REG s' b r = REG s b r.

(** ** States to run the routines on *)

(** A memory with the 32-bit words [a] and [b] at [sp+4] and [sp+8]. *)
Definition stack_with (sp a b : Z) : Z -> Z :=
  store16 (store16 (store16 (store16 (fun _ => 0) (sp + 4) a)
                            (sp + 6) (a / 65536))
                   (sp + 8) b)
          (sp + 10) (b / 65536).

(** Bank 0 selected, every register pair holding a word of its own. *)
Definition demo_regs (b : rb) (r : rp) : Z :=
  match b, r with
  | RB0, AX => 0x0a01 | RB0, BC => 0x0b01 | RB0, DE => 0x0d01 | RB0, HL => 0x0f01
  | RB1, AX => 0x0a02 | RB1, BC => 0x0b02 | RB1, DE => 0x0d02 | RB1, HL => 0x0f02
  | RB2, AX => 0x0a03 | RB2, BC => 0x0b03 | RB2, DE => 0x0d03 | RB2, HL => 0x0f03
  | RB3, AX => 0x0a04 | RB3, BC => 0x0b04 | RB3, DE => 0x0d04 | RB3, HL => 0x0f04
  end.

Definition demo_state (a b : Z) : state :=
  mkState RB0 demo_regs false false 0xfe00 (stack_with 0xfe00 a b).

(** A memory with the 16-bit words [a] and [b] at [sp+4] and [sp+6]. *)
Definition demo_state16 (a b : Z) : state :=
  mkState RB0 demo_regs false false 0xfe00
          (store16 (store16 (fun _ => 0) (0xfe00 + 4) a) (0xfe00 + 6) b).

End RL78.

(* ===================================================================== *)
(** * The two testsuite fixtures *)
(* ===================================================================== *)

(** A C [int] on the targets of the fixtures: the 32-bit two's-complement
    number with the low 32 bits of [z]. *)
Definition int32 (z : Z) : Z := (z + 2147483648) mod 4294967296 - 2147483648.

(** The addresses [from], [from + 1], ..., [from + len - 1]. *)
Definition span (from : Z) (len : nat) : list Z :=
  map (fun k => from + Z.of_nat k) (seq 0 len).

(** ** gcc.target/arm/neon-vshl-imm-1.c *)

Module NeonVshl.

(** Memory as [f1] sees it through its two [int*] arguments: [int] cells
    addressed in units of one element, and the log of the stores made so far,
    oldest first.  [x] and [y] are addresses in the same memory, so they
    may overlap. *)
Record heap : Type := mkHeap {
  cell : Z -> Z;
  stores : list (Z * Z)
}.

Definition load (h : heap) (a : Z) : Z := cell h a.

Definition store (h : heap) (a v : Z) : heap :=
  mkHeap (fun a' => if a' =? a then v else cell h a') (stores h ++ [(a, v)]).

(** [for (i = 0; i < n; ++i) y[i] = x[i] << 3;] from the test [i < n] on.
    [++i] cannot overflow: [i < n] and [n] is an [int]. *)
Equations? f1_loop (n x y i : Z) (h : heap) : heap by wf (Z.to_nat (n - i)) lt :=
  f1_loop n x y i h with Z_lt_dec i n => {
    | left _ :=
        f1_loop n x y (i + 1)
                (store h (y + i) (int32 (Z.shiftl (load h (x + i)) 3)));
    | right _ := h }.
Proof. lia. Qed.

Definition f1 (n x y : Z) (h : heap) : heap := f1_loop n x y 0 h.

End NeonVshl.

(** ** The fixture for PR target/50749 *)

Module Pr50749.
Section Float.

(** The C type [float] with its addition and the constant [0]; the loop does
    nothing else with floats. *)
Variable F : Type.
Variable fadd : F -> F -> F.
Variable fzero : F.

(** The [do ... while (--c)] loop.  [m] is the memory of floats addressed in
    units of one element, [log] the addresses dereferenced so far.  One unit
    of fuel is one execution of the body; the pair returned is the value
    returned, if the loop has ended, and the log.  [--c] wraps at 32 bits. *)
Fixpoint do_while (fuel : nat) (m : Z -> F) (p c : Z) (r : F) (log : list Z)
  : option F * list Z :=
  match fuel with
  | O => (None, log)
  | S fuel =>
    let r := fadd r (m p) in                  (* r += *p *)
    let log := log ++ [p] in
    let p := p + 1 in                         (* p++ *)
    let c := int32 (c - 1) in                 (* --c *)
    if negb (c =? 0) then do_while fuel m p c r log
    else (Some r, log)                        (* return r *)
  end.

Definition test_func_00 (fuel : nat) (m : Z -> F) (p c : Z) : option F * list Z :=
  do_while fuel m p c fzero [].

End Float.
End Pr50749.

(** ** Inputs to run the fixtures on *)

(** The IEEE single-precision addition and constants, for running
    [test_func_00] on actual floats. *)
Definition binary32_add : spec_float -> spec_float -> spec_float := SFadd 24 128.
Definition binary32_zero : spec_float := S754_zero false.

(** 1.0f at address 0, 2.0f at address 1, 0.5f everywhere else. *)
Definition demo_floats (a : Z) : spec_float :=
  if a =? 0 then S754_finite false 8388608 (-23)
  else if a =? 1 then S754_finite false 8388608 (-22)
  else S754_finite false 8388608 (-24).

(** Cell [a] holds [a - 1]; no store made yet. *)
Definition demo_heap : NeonVshl.heap := NeonVshl.mkHeap (fun a => a - 1) [].

(* ===================================================================== *)
(** * Proofs about mulsi3.S *)
(* ===================================================================== *)

Import RL78.

(** ** Words *)

#[local] Instance eqm_equivalence N : Equivalence (eqm N) := eqm_setoid N.
#[local] Instance add_eqm N : Proper (eqm N ==> eqm N ==> eqm N) Z.add := Zplus_eqm N.
#[local] Instance sub_eqm N : Proper (eqm N ==> eqm N ==> eqm N) Z.sub := Zminus_eqm N.
#[local] Instance mul_eqm N : Proper (eqm N ==> eqm N ==> eqm N) Z.mul := Zmult_eqm N.

Lemma w16_range z : 0 <= w16 z < 65536.
Proof. unfold w16. apply Z.mod_pos_bound. lia. Qed.

Lemma w16_small z : 0 <= z < 65536 -> w16 z = z.
Proof. intros H. unfold w16. apply Z.mod_small. exact H. Qed.

Lemma w16_eqm z : eqm 65536 (w16 z) z.
Proof. unfold w16. apply Zmod_eqm. Qed.

Lemma w16_of_eqm a b : eqm 65536 a b -> w16 a = w16 b.
Proof. intros H. exact H. Qed.

Lemma w16_add_l a b : w16 (w16 a + b) = w16 (a + b).
Proof. apply w16_of_eqm. rewrite w16_eqm. reflexivity. Qed.

Lemma load8_range m a : 0 <= load8 m a < 256.
Proof. unfold load8. apply Z.mod_pos_bound. lia. Qed.

Lemma load16_range m a : 0 <= load16 m a < 65536.
Proof.
  unfold load16.
  pose proof (load8_range m (w16 a)).
  pose proof (load8_range m (w16 (a + 1))).
  lia.
Qed.

Lemma shiftr1 a : Z.shiftr a 1 = a / 2.
Proof. rewrite Z.shiftr_div_pow2 by lia. reflexivity. Qed.

Lemma shiftl1 a : Z.shiftl a 1 = 2 * a.
Proof. rewrite Z.shiftl_mul_pow2 by lia. change (2 ^ 1) with 2. lia. Qed.

Lemma odd_half a : a = 2 * (a / 2) + Z.b2z (Z.odd a).
Proof.
  rewrite <- Z.bit0_odd, Z.bit0_mod.
  exact (Z.div_mod a 2 ltac:(lia)).
Qed.

Lemma testbit15 a : 0 <= a < 65536 -> Z.testbit a 15 = (32768 <=? a).
Proof.
  intros H. destruct (Z.leb_spec 32768 a).
  - apply Z.testbit_true; [lia|]. change (2 ^ 15) with 32768.
    replace (a / 32768) with 1; [reflexivity|].
    apply Z.div_unique with (r := a - 32768); lia.
  - apply Z.testbit_false; [lia|]. change (2 ^ 15) with 32768.
    rewrite Z.div_small by lia. reflexivity.
Qed.

Lemma lor_carry_in k (c : bool) : Z.lor (2 * k) (Z.b2z c) = 2 * k + Z.b2z c.
Proof.
  destruct c; simpl Z.b2z.
  - apply Z.bits_inj'. intros n Hn. rewrite Z.lor_spec.
    destruct (Z.eq_dec n 0) as [->|Hn0].
    + rewrite Z.testbit_even_0, Z.testbit_odd_0. reflexivity.
    + replace n with (Z.succ (n - 1)) by lia.
      rewrite Z.testbit_even_succ, Z.testbit_odd_succ by lia.
      replace (Z.testbit 1 (Z.succ (n - 1))) with false.
      * apply orb_false_r.
      * symmetry. apply Z.bits_above_log2; simpl; lia.
  - rewrite Z.lor_0_r. lia.
Qed.

Lemma w16_double a : w16 (2 * a) = 2 * (a mod 32768).
Proof.
  unfold w16. change 65536 with (2 * 32768).
  rewrite Z.mul_mod_distr_l by lia. reflexivity.
Qed.

(** The two cases of one shift-and-add step, modulo 2^16. *)
Lemma mul_step16 acc m c :
  w16 (acc + Z.b2z (Z.odd m) * c + (m / 2) * w16 (2 * c)) = w16 (acc + m * c).
Proof.
  apply w16_of_eqm. rewrite w16_eqm.
  assert (E : acc + m * c = acc + Z.b2z (Z.odd m) * c + m / 2 * (2 * c)).
  { rewrite (odd_half m) at 1. ring. }
  rewrite E. reflexivity.
Qed.

(** Run the instructions of the goal, leaving the arithmetic folded. *)
Ltac exec :=
  cbn -[Z.shiftl Z.shiftr Z.testbit Z.pow w16 Z.add Z.sub Z.mul Z.opp Z.ltb
        Z.leb Z.eqb Z.of_nat Z.lor Z.b2z Z.div Z.modulo load16 store16 store8].
Ltac exec_in_all :=
  cbn -[Z.shiftl Z.shiftr Z.testbit Z.pow w16 Z.add Z.sub Z.mul Z.opp Z.ltb
        Z.leb Z.eqb Z.of_nat Z.lor Z.b2z Z.div Z.modulo load16 store16 store8] in *.

Lemma hi_odd acc m c :
  Z.testbit m 0 = true ->
  w16 (w16 (acc + c) + Z.shiftr m 1 * w16 (Z.shiftl c 1)) = w16 (acc + m * c).
Proof.
  rewrite Z.bit0_odd. intros H.
  rewrite w16_add_l, shiftr1, shiftl1, <- (mul_step16 acc m c), H.
  simpl Z.b2z. f_equal. ring.
Qed.

Lemma hi_even acc m c :
  Z.testbit m 0 = false ->
  w16 (acc + Z.shiftr m 1 * w16 (Z.shiftl c 1)) = w16 (acc + m * c).
Proof.
  rewrite Z.bit0_odd. intros H.
  rewrite shiftr1, shiftl1, <- (mul_step16 acc m c), H.
  simpl Z.b2z. f_equal. ring.
Qed.

Lemma shiftr1_bound m k :
  0 <= m < 2 ^ Z.of_nat (S k) -> 0 <= Z.shiftr m 1 < 2 ^ Z.of_nat k.
Proof.
  rewrite Nat2Z.inj_succ, Z.pow_succ_r by lia.
  intros H. rewrite shiftr1.
  split; [apply Z.div_pos; lia | apply Z.div_lt_upper_bound; lia].
Qed.

Lemma shiftr1_le m : 0 <= m -> 0 <= Z.shiftr m 1 <= m.
Proof.
  intros H. rewrite shiftr1. split; [apply Z.div_pos; lia|].
  apply Z.div_le_upper_bound; lia.
Qed.

Lemma even_half_zero m : Z.testbit m 0 = false -> Z.shiftr m 1 = 0 -> m = 0.
Proof.
  rewrite Z.bit0_odd, shiftr1. intros Ho Hd.
  rewrite (odd_half m), Ho, Hd. reflexivity.
Qed.

Ltac frame_regs Hfr :=
  let b := fresh "b" in let r := fresh "r" in let Hbr := fresh "Hbr" in
  intros b r Hbr; rewrite Hfr by exact Hbr;
  destruct b, r; cbn in *; congruence.

Lemma Lmul_hi_loop_spec : forall k fuel s,
  (k < fuel)%nat -> RBS s = RB0 ->
  0 <= REG s RB0 AX < 2 ^ Z.of_nat k -> REG s RB0 AX < 65536 ->
  exists s', Lmul_hi_loop fuel s = Some s' /\
    w16 (REG s' RB1 AX) = w16 (REG s RB1 AX + REG s RB0 AX * REG s RB0 BC) /\
    (0 <= REG s RB1 AX < 65536 -> 0 <= REG s' RB1 AX < 65536) /\
    RBS s' = RB0 /\ SP s' = w16 (SP s + 4) /\ MEM s' = MEM s /\
    (forall b r, hi_scratch b r = false -> REG s' b r = REG s b r).
Proof.
  induction k as [|k IH]; intros fuel s Hf Hb Hm Hw;
    (destruct fuel as [|fuel]; [lia|]);
    destruct s as [b R c z sp m]; simpl in Hb, Hm, Hw; subst b.
  - assert (R RB0 AX = 0) as E by (change (2 ^ Z.of_nat 0) with 1 in Hm; lia).
    exec. rewrite E. exec.
    eexists; split; [reflexivity|]. exec. rewrite E.
    refine (conj _ (conj _ (conj _ (conj _ (conj _ _))))); try tauto; try lia.
    + f_equal. lia.
    + intros [] []; cbn; congruence.
  - pose proof (shiftr1_bound _ _ Hm) as Hm1.
    pose proof (shiftr1_le (R RB0 AX) ltac:(lia)) as Hle1.
    pose proof (shiftr1_le (Z.shiftr (R RB0 AX) 1) ltac:(lia)) as Hle2.
    exec. destruct (Z.testbit (R RB0 AX) 0) eqn:Ho.
    + edestruct (IH fuel) as (s' & Hrun & Hacc & Hrng & Hrbs & Hsp & Hmem & Hfr);
        [ | | | | exists s'; split; [exact Hrun|] ]; exec; try lia; try reflexivity.
      exec_in_all.
      refine (conj _ (conj _ (conj _ (conj _ (conj _ _))))); try assumption.
      * rewrite Hacc. apply hi_odd. exact Ho.
      * intros _. apply Hrng. apply w16_range.
      * frame_regs Hfr.
    + rewrite Z.sub_0_r. destruct (Z.eqb_spec (w16 (Z.shiftr (R RB0 AX) 1)) 0) as [Hz|Hz].
      * rewrite w16_small in Hz by lia.
        eexists; split; [reflexivity|]. exec.
        rewrite (even_half_zero _ Ho Hz).
        refine (conj _ (conj _ (conj _ (conj _ (conj _ _))))); try tauto; try lia.
        -- f_equal. lia.
        -- intros [] []; cbn; congruence.
      * rewrite w16_small in Hz by lia.
        destruct (Z.testbit (Z.shiftr (R RB0 AX) 1) 0) eqn:Ho2.
        -- edestruct (IH fuel) as (s' & Hrun & Hacc & Hrng & Hrbs & Hsp & Hmem & Hfr);
             [ | | | | exists s'; split; [exact Hrun|] ]; exec; try lia; try reflexivity.
           exec_in_all.
           refine (conj _ (conj _ (conj _ (conj _ (conj _ _))))); try assumption.
           ++ rewrite Hacc, hi_odd by exact Ho2. apply hi_even. exact Ho.
           ++ intros _. apply Hrng. apply w16_range.
           ++ frame_regs Hfr.
        -- rewrite Z.sub_0_r.
           destruct (Z.eqb_spec (w16 (Z.shiftr (Z.shiftr (R RB0 AX) 1) 1)) 0) as [Hz2|Hz2]; exec.
           ++ rewrite w16_small in Hz2 by lia.
              exfalso. apply Hz. apply (even_half_zero _ Ho2 Hz2).
           ++ edestruct (IH fuel) as (s' & Hrun & Hacc & Hrng & Hrbs & Hsp & Hmem & Hfr);
                [ | | | | exists s'; split; [exact Hrun|] ]; exec; try lia; try reflexivity.
              exec_in_all.
              refine (conj _ (conj _ (conj _ (conj _ (conj _ _))))); try assumption.
              ** rewrite Hacc, hi_even by exact Ho2. apply hi_even. exact Ho.
              ** frame_regs Hfr.
Qed.

Lemma Lmul_hi_order_spec s :
  RBS s = RB0 ->
  let s' := Lmul_hi_order s in
  RBS s' = RB0 /\ SP s' = SP s /\ MEM s' = MEM s /\
  REG s' RB0 AX = Z.min (REG s RB0 AX) (REG s RB0 BC) /\
  REG s' RB0 BC = Z.max (REG s RB0 AX) (REG s RB0 BC) /\
  (forall b r, hi_scratch b r = false -> REG s' b r = REG s b r) /\
  REG s' RB1 AX = REG s RB1 AX.
Proof.
  destruct s as [b R c z sp m]; simpl; intros ->.
  unfold Lmul_hi_order. exec.
  destruct (Z.ltb_spec (R RB0 AX) (R RB0 BC)); exec;
    (repeat split; try lia; try reflexivity);
    intros [] []; cbn; congruence.
Qed.

Lemma Lmul_hi_spec : forall k fuel s,
  (k < fuel)%nat -> RBS s = RB0 ->
  0 <= REG s RB0 AX < 65536 -> 0 <= REG s RB0 BC < 65536 ->
  REG s RB0 AX < 2 ^ Z.of_nat k \/ REG s RB0 BC < 2 ^ Z.of_nat k ->
  exists s', Lmul_hi fuel s = Some s' /\
    w16 (REG s' RB1 AX) = w16 (REG s RB1 AX + REG s RB0 AX * REG s RB0 BC) /\
    (0 <= REG s RB1 AX < 65536 -> 0 <= REG s' RB1 AX < 65536) /\
    RBS s' = RB0 /\ SP s' = w16 (SP s + 4) /\ MEM s' = MEM s /\
    (forall b r, hi_scratch b r = false -> REG s' b r = REG s b r).
Proof.
  intros k fuel s Hf Hb Ha Hc Hk.
  destruct (Lmul_hi_order_spec s Hb) as (Hb' & Hsp & Hmem & Hmin & Hmax & Hfr & Hacc).
  destruct (Lmul_hi_loop_spec k fuel (Lmul_hi_order s) Hf Hb')
    as (s' & Hrun & Hacc' & Hrng & Hrbs & Hsp' & Hmem' & Hfr'); try lia.
  exists s'. split; [exact Hrun|].
  rewrite Hacc, Hmin, Hmax in Hacc'. rewrite Hacc in Hrng.
  rewrite Hsp in Hsp'. rewrite Hmem in Hmem'.
  refine (conj _ (conj Hrng (conj Hrbs (conj Hsp' (conj Hmem' _))))).
  - rewrite Hacc'. f_equal. f_equal. lia.
  - intros b r Hbr. rewrite Hfr', Hfr by exact Hbr. reflexivity.
Qed.

Lemma pow2_16 : 2 ^ Z.of_nat 16 = 65536.
Proof. reflexivity. Qed.

Lemma ___mulhi3_spec fuel s :
  (16 < fuel)%nat -> RBS s = RB0 ->
  exists s', ___mulhi3 fuel s = Some s' /\
    REG s' RB1 AX = w16 (arg16 4 s * arg16 6 s) /\
    RBS s' = RB0 /\ SP s' = w16 (SP s + 4) /\ MEM s' = MEM s /\
    (forall b r, hi_scratch b r = false -> REG s' b r = REG s b r).
Proof.
  intros Hf Hb. destruct s as [b R c z sp m]; simpl in Hb; subst b.
  unfold ___mulhi3, arg16.
  pose proof (load16_range m (sp + 4)) as H4.
  pose proof (load16_range m (sp + 6)) as H6.
  edestruct (Lmul_hi_spec 16 fuel) as (s' & Hrun & Hacc & Hrng & Hrbs & Hsp & Hmem & Hfr);
    [ exact Hf | | | | | exists s'; split; [exact Hrun|] ];
    exec; rewrite ?pow2_16; try lia; try reflexivity.
  exec_in_all.
  refine (conj _ (conj Hrbs (conj Hsp (conj Hmem _)))).
  - rewrite <- (w16_small (REG s' RB1 AX)) by (apply Hrng; lia).
    rewrite Hacc. f_equal; lia.
  - frame_regs Hfr.
Qed.

(** ** The stack *)

Ltac w16_lia := unfold w16 in *; Z.div_mod_to_equations; lia.

Lemma below_mono sp n n' a : n <= n' -> below sp n a -> below sp n' a.
Proof. intros Hn (i & Hi & ->). exists i. split; [lia | reflexivity]. Qed.

Lemma below_shift sp d n a :
  0 <= d -> below (w16 (sp - d)) n a -> below sp (d + n) a.
Proof.
  intros Hd (i & Hi & ->). exists (d + i). split; [lia|]. w16_lia.
Qed.

Lemma store8_other m a v a' : a' <> a -> store8 m a v a' = m a'.
Proof. intros H. unfold store8. destruct (Z.eqb_spec a' a); [contradiction | reflexivity]. Qed.

Lemma store16_other m a v a' :
  a' <> w16 a -> a' <> w16 (a + 1) -> store16 m a v a' = m a'.
Proof. intros H0 H1. unfold store16. rewrite !store8_other by assumption. reflexivity. Qed.

Lemma load16_store16 m a v a' : w16 a' = w16 a -> load16 (store16 m a v) a' = w16 v.
Proof.
  intros E. unfold load16, store16, load8, store8.
  assert (E1 : w16 (a' + 1) = w16 (a + 1)) by w16_lia.
  rewrite E, E1, Z.eqb_refl.
  destruct (Z.eqb_spec (w16 (a + 1)) (w16 a)) as [E2|_]; [exfalso; w16_lia|].
  rewrite Z.eqb_refl. w16_lia.
Qed.

Lemma load16_frame (m m' : Z -> Z) a :
  m' (w16 a) = m (w16 a) -> m' (w16 (a + 1)) = m (w16 (a + 1)) ->
  load16 m' a = load16 m a.
Proof. intros H0 H1. unfold load16, load8. rewrite H0, H1. reflexivity. Qed.

(** A word at or above the stack pointer is not touched by what happens
    below it. *)
Lemma load16_above (m m' : Z -> Z) sp n k :
  (forall a, ~ below sp n a -> m' a = m a) ->
  0 <= k -> 0 <= n -> k + 1 + n < 65536 ->
  load16 m' (sp + k) = load16 m (sp + k).
Proof.
  intros Hfr Hk Hn Hlt.
  apply load16_frame; apply Hfr; intros (i & Hi & E); w16_lia.
Qed.

Lemma cmpw_zero x : 0 <= x < 65536 -> (w16 (x - 0) =? 0) = (x =? 0).
Proof. intros H. rewrite Z.sub_0_r, w16_small by exact H. reflexivity. Qed.

Lemma cmpw_ffff x : 0 <= x < 65536 -> (w16 (x - 65535) =? 0) = (x =? 65535).
Proof.
  intros H. destruct (Z.eqb_spec x 65535) as [->|N]; [reflexivity|].
  apply Z.eqb_neq. w16_lia.
Qed.

Lemma subw_is_times_ffff acc lo : w16 (acc - lo) = w16 (acc + lo * 65535).
Proof.
  unfold w16. replace (acc + lo * 65535) with (acc - lo + lo * 65536) by ring.
  symmetry. apply Z_mod_plus_full.
Qed.

Lemma call_mem_frame ra s a :
  ~ below (SP s) 4 a -> MEM (call ra s) a = MEM s a.
Proof.
  intros H. unfold call. exec.
  rewrite store16_other, store8_other; [reflexivity| | |];
    intros ->; apply H.
  - exists 2. split; [lia | reflexivity].
  - exists 4. split; [lia | w16_lia].
  - exists 3. split; [lia | w16_lia].
Qed.

Lemma cross_term_gen ra oH oL k fuel s :
  RBS s = RB0 -> 0 <= REG s RB1 AX < 65536 -> 0 <= SP s < 65536 ->
  let hi := load16 (MEM s) (SP s + oH) in
  let lo := load16 (MEM s) (SP s + oL) in
  hi = 0 \/ hi = 65535 \/ lo = 0 \/
    ((k < fuel)%nat /\ (lo < 2 ^ Z.of_nat k \/ hi < 2 ^ Z.of_nat k)) ->
  exists s', cross_term ra oH oL fuel s = Some s' /\
    REG s' RB1 AX = w16 (REG s RB1 AX + lo * hi) /\
    RBS s' = RB0 /\ SP s' = SP s /\
    (forall a, ~ below (SP s) 4 a -> MEM s' a = MEM s a) /\
    (forall b r, hi_scratch b r = false -> REG s' b r = REG s b r).
Proof.
  destruct s as [b R c z sp m]; simpl; intros -> Hacc Hsp Hk.
  pose proof (load16_range m (sp + oH)) as HH.
  pose proof (load16_range m (sp + oL)) as HL.
  unfold cross_term. exec.
  rewrite cmpw_zero by exact HH.
  destruct (Z.eqb_spec (load16 m (sp + oH)) 0) as [E0|N0].
  { eexists; split; [reflexivity|]. exec. rewrite E0.
    repeat split; try reflexivity.
    - rewrite Z.mul_0_r, Z.add_0_r, w16_small by lia. reflexivity.
    - intros [] []; cbn; congruence. }
  rewrite cmpw_ffff by exact HH.
  destruct (Z.eqb_spec (load16 m (sp + oH)) 65535) as [Ef|Nf]; exec.
  { eexists; split; [reflexivity|]. exec. rewrite Ef.
    repeat split; try reflexivity.
    - apply subw_is_times_ffff.
    - intros [] []; cbn; congruence. }
  rewrite cmpw_zero by exact HL.
  destruct (Z.eqb_spec (load16 m (sp + oL)) 0) as [L0|NL0].
  { eexists; split; [reflexivity|]. exec. rewrite L0.
    repeat split; try reflexivity.
    - rewrite Z.mul_0_l, Z.add_0_r, w16_small by lia. reflexivity.
    - intros [] []; cbn; congruence. }
  destruct Hk as [Hk|[Hk|[Hk|[Hf Hk]]]]; try contradiction.
  edestruct (Lmul_hi_spec k fuel) as (s' & Hrun & Hacc' & Hrng & Hrbs & Hsp' & Hmem & Hfr);
    [ exact Hf | | | | | exists s'; split; [exact Hrun|] ];
    exec; try lia; try reflexivity.
  exec_in_all.
  refine (conj _ (conj Hrbs (conj _ (conj _ _)))).
  - rewrite <- (w16_small (REG s' RB1 AX)) by (apply Hrng; lia).
    exact Hacc'.
  - rewrite Hsp'. w16_lia.
  - intros a Ha. rewrite Hmem.
    match goal with |- ?f a = _ =>
      change (MEM (call ra (mkState RB0 R c z sp m)) a = m a) end.
    apply call_mem_frame. exact Ha.
  - frame_regs Hfr.
Qed.

(** ** The 32-bit shift-and-add loop *)

Lemma add32 aL aH cL cH :
  0 <= aL < 65536 -> 0 <= cL < 65536 ->
  eqm 4294967296
    (w16 (aL + cL) +
     65536 * w16 ((if 65536 <=? aL + cL then w16 (aH + 1) else aH) + cH))
    (aL + 65536 * aH + (cL + 65536 * cH)).
Proof.
  intros Ha Hc. unfold eqm.
  destruct (Z.leb_spec 65536 (aL + cL)); w16_lia.
Qed.

Lemma shl32 cL cH :
  0 <= cL < 65536 ->
  eqm 4294967296
    (w16 (Z.shiftl cL 1) +
     65536 * Z.lor (w16 (Z.shiftl cH 1)) (Z.b2z (Z.testbit cL 15)))
    (2 * (cL + 65536 * cH)).
Proof.
  intros Hc. rewrite !shiftl1, (w16_double cH), lor_carry_in, testbit15 by exact Hc.
  unfold eqm. destruct (Z.leb_spec 32768 cL); simpl Z.b2z; w16_lia.
Qed.

Lemma rolwc_range cH (c : bool) :
  0 <= Z.lor (w16 (Z.shiftl cH 1)) (Z.b2z c) < 65536.
Proof.
  rewrite shiftl1, w16_double, lor_carry_in.
  pose proof (Z.mod_pos_bound cH 32768 ltac:(lia)).
  destruct c; simpl Z.b2z; lia.
Qed.

Lemma Lmul_hisi_step_spec s :
  RBS s = RB0 -> hisi_wf s ->
  let s' := Lmul_hisi_step s in
  RBS s' = RB0 /\
  REG s' RB0 AX = Z.shiftr (REG s RB0 AX) 1 /\
  ZF s' = (w16 (Z.shiftr (REG s RB0 AX) 1 - 0) =? 0) /\
  eqm 4294967296 (acc32 s')
      (acc32 s + Z.b2z (Z.testbit (REG s RB0 AX) 0) * op32 s) /\
  eqm 4294967296 (op32 s') (2 * op32 s) /\
  hisi_wf s' /\ SP s' = SP s /\ MEM s' = MEM s /\
  (forall b r, hisi_scratch b r = false -> REG s' b r = REG s b r).
Proof.
  destruct s as [b R c z sp m]; unfold hisi_wf, acc32, op32, Lmul_hisi_step; exec.
  intros -> (HaL & HaH & HcL & HcH). exec.
  destruct (Z.testbit (R RB0 AX) 0) eqn:Ho; exec.
  - destruct (Z.leb_spec 65536 (R RB1 AX + R RB1 BC)) as [Hc|Hc]; exec;
      (refine (conj eq_refl (conj eq_refl (conj eq_refl (conj _ (conj _ (conj _
         (conj eq_refl (conj eq_refl _))))))));
       [ | apply shl32; assumption
         | repeat split; try apply w16_range; apply rolwc_range
         | intros [] []; cbn; congruence ]).
    + pose proof (add32 (R RB1 AX) (R RB2 AX) (R RB1 BC) (R RB0 BC) HaL HcL) as E.
      destruct (Z.leb_spec 65536 (R RB1 AX + R RB1 BC)); [|lia].
      rewrite E. simpl Z.b2z. rewrite Z.mul_1_l. reflexivity.
    + pose proof (add32 (R RB1 AX) (R RB2 AX) (R RB1 BC) (R RB0 BC) HaL HcL) as E.
      destruct (Z.leb_spec 65536 (R RB1 AX + R RB1 BC)); [lia|].
      rewrite E. simpl Z.b2z. rewrite Z.mul_1_l. reflexivity.
  - refine (conj eq_refl (conj eq_refl (conj eq_refl (conj _ (conj _ (conj _
         (conj eq_refl (conj eq_refl _)))))))).
    + simpl Z.b2z. rewrite Z.mul_0_l, Z.add_0_r. reflexivity.
    + apply shl32; assumption.
    + repeat split; try apply w16_range; try apply rolwc_range; lia.
    + intros [] []; cbn; congruence.
Qed.

Lemma Lmul_hisi_loop_S fuel s :
  Lmul_hisi_loop (S fuel) s =
  let s1 := Lmul_hisi_step s in
  if ZF s1 then Some s1
  else let s2 := Lmul_hisi_step s1 in
       if negb (ZF s2) then Lmul_hisi_loop fuel s2 else Some s2.
Proof. reflexivity. Qed.

Lemma bit_half m : m = 2 * Z.shiftr m 1 + Z.b2z (Z.testbit m 0).
Proof. rewrite shiftr1, Z.bit0_odd. apply odd_half. Qed.

Lemma shiftr2_bound m k :
  0 <= m < 4 ^ Z.of_nat (S k) -> 0 <= Z.shiftr (Z.shiftr m 1) 1 < 4 ^ Z.of_nat k.
Proof.
  rewrite Nat2Z.inj_succ, Z.pow_succ_r by lia.
  intros H. rewrite !shiftr1.
  assert (0 <= m / 2) by (apply Z.div_pos; lia).
  split; [apply Z.div_pos; lia|].
  apply Z.div_lt_upper_bound; [lia|]. apply Z.div_lt_upper_bound; lia.
Qed.

Lemma eqm_of_eq N a b : a = b -> eqm N a b.
Proof. intros ->. reflexivity. Qed.

Lemma step1_arith acc op m h b0 :
  m = 2 * h + b0 -> h = 0 -> acc + b0 * op = acc + m * op.
Proof. intros -> ->. ring. Qed.

Lemma step2_arith acc op m h h2 b0 b1 :
  m = 2 * h + b0 -> h = 2 * h2 + b1 ->
  acc + (b0 + 2 * b1) * op + h2 * (2 * (2 * op)) = acc + m * op.
Proof. intros -> ->. ring. Qed.

Lemma Lmul_hisi_loop_spec : forall k fuel s,
  (k <= fuel)%nat -> (1 <= fuel)%nat -> RBS s = RB0 -> hisi_wf s ->
  0 <= REG s RB0 AX < 4 ^ Z.of_nat k -> REG s RB0 AX < 65536 ->
  exists s', Lmul_hisi_loop fuel s = Some s' /\
    eqm 4294967296 (acc32 s') (acc32 s + REG s RB0 AX * op32 s) /\
    hisi_wf s' /\ RBS s' = RB0 /\ SP s' = SP s /\ MEM s' = MEM s /\
    (forall b r, hisi_scratch b r = false -> REG s' b r = REG s b r).
Proof.
  induction k as [|k IH]; intros fuel s Hf Hf1 Hb Hwf Hm Hw;
    (destruct fuel as [|fuel]; [lia|]); rewrite Lmul_hisi_loop_S; cbv zeta;
    destruct (Lmul_hisi_step_spec s Hb Hwf)
      as (Hb1 & Hm1 & Hz1 & Hacc1 & Hop1 & Hwf1 & Hsp1 & Hmem1 & Hfr1);
    set (s1 := Lmul_hisi_step s) in *;
    pose proof (bit_half (REG s RB0 AX)) as Hbit;
    pose proof (shiftr1_le (REG s RB0 AX) ltac:(lia)) as Hle1;
    rewrite cmpw_zero in Hz1 by lia; rewrite Hz1.
  - assert (Z.shiftr (REG s RB0 AX) 1 = 0) as E
      by (change (4 ^ Z.of_nat 0) with 1 in Hm; lia).
    rewrite E. change (0 =? 0) with true; cbv iota.
    exists s1. split; [reflexivity|].
    refine (conj _ (conj Hwf1 (conj Hb1 (conj Hsp1 (conj Hmem1 Hfr1))))).
    rewrite Hacc1. apply eqm_of_eq. exact (step1_arith _ _ _ _ _ Hbit E).
  - destruct (Z.eqb_spec (Z.shiftr (REG s RB0 AX) 1) 0) as [Hz|Hz].
    + exists s1. split; [reflexivity|].
      refine (conj _ (conj Hwf1 (conj Hb1 (conj Hsp1 (conj Hmem1 Hfr1))))).
      rewrite Hacc1. apply eqm_of_eq. exact (step1_arith _ _ _ _ _ Hbit Hz).
    + destruct (Lmul_hisi_step_spec s1 Hb1 Hwf1)
        as (Hb2 & Hm2 & Hz2 & Hacc2 & Hop2 & Hwf2 & Hsp2 & Hmem2 & Hfr2).
      set (s2 := Lmul_hisi_step s1) in *.
      rewrite Hm1 in Hm2, Hz2, Hacc2.
      pose proof (bit_half (Z.shiftr (REG s RB0 AX) 1)) as Hbit2.
      pose proof (shiftr1_le (Z.shiftr (REG s RB0 AX) 1) ltac:(lia)) as Hle2.
      pose proof (shiftr2_bound _ _ Hm) as Hm4.
      rewrite cmpw_zero in Hz2 by lia. rewrite Hz2.
      assert (Hacc12 : eqm 4294967296 (acc32 s2)
                (acc32 s + (Z.b2z (Z.testbit (REG s RB0 AX) 0) +
                            2 * Z.b2z (Z.testbit (Z.shiftr (REG s RB0 AX) 1) 0)) * op32 s)).
      { rewrite Hacc2, Hacc1, Hop1. apply eqm_of_eq. ring. }
      assert (Hfr12 : forall b r, hisi_scratch b r = false -> REG s2 b r = REG s b r).
      { intros b r Hbr. rewrite Hfr2, Hfr1 by exact Hbr. reflexivity. }
      destruct (Z.eqb_spec (Z.shiftr (Z.shiftr (REG s RB0 AX) 1) 1) 0) as [Hz4|Hz4];
        simpl negb; cbv iota.
      * exists s2. split; [reflexivity|].
        refine (conj _ (conj Hwf2 (conj Hb2 (conj _ (conj _ Hfr12))))); try congruence.
        rewrite Hacc12. apply eqm_of_eq.
        rewrite <- (step2_arith _ _ _ _ _ _ _ Hbit Hbit2), Hz4. ring.
      * assert (k <> 0%nat) as Hk.
        { intros ->. change (4 ^ Z.of_nat 0) with 1 in Hm4. lia. }
        destruct (IH fuel s2) as (s' & Hrun & Hacc & Hwf' & Hrbs & Hsp & Hmem & Hfr);
          try assumption; try lia.
        exists s'. split; [exact Hrun|].
        refine (conj _ (conj Hwf' (conj Hrbs (conj _ (conj _ _))))); try congruence.
        -- rewrite Hacc, Hacc12, Hm2, Hop2, Hop1.
           apply eqm_of_eq. exact (step2_arith _ _ _ _ _ _ _ Hbit Hbit2).
        -- intros b r Hbr. rewrite Hfr, Hfr12 by exact Hbr. reflexivity.
Qed.

Lemma load16_eqaddr m a a' : w16 a = w16 a' -> load16 m a = load16 m a'.
Proof.
  intros E. unfold load16.
  assert (E1 : w16 (a + 1) = w16 (a' + 1)) by w16_lia.
  rewrite E, E1. reflexivity.
Qed.

Lemma load16_store16_other m a v a' :
  w16 a' <> w16 a -> w16 a' <> w16 (a + 1) ->
  w16 (a' + 1) <> w16 a -> w16 (a' + 1) <> w16 (a + 1) ->
  load16 (store16 m a v) a' = load16 m a'.
Proof.
  intros. apply load16_frame; apply store16_other; assumption.
Qed.

Lemma mulsi3_prologue_spec s :
  let s1 := mulsi3_prologue s in
  RBS s1 = RB0 /\ SP s1 = w16 (SP s - 4) /\
  REG s1 RB1 AX = 0 /\ REG s1 RB2 AX = 0 /\
  (forall b r, prologue_scratch b r = false -> REG s1 b r = REG s b r) /\
  load16 (MEM s1) (SP s1) = w16 (REG s RB2 BC) /\
  load16 (MEM s1) (SP s1 + 2) = w16 (REG s RB2 AX) /\
  (forall a, ~ below (SP s) 4 a -> MEM s1 a = MEM s a).
Proof.
  destruct s as [b R c z sp m]. unfold mulsi3_prologue. exec.
  split; [reflexivity|]. split; [w16_lia|].
  split; [reflexivity|]. split; [reflexivity|].
  split; [intros [] []; cbn; congruence|].
  split; [apply load16_store16; w16_lia|].
  split.
  - rewrite load16_store16_other by w16_lia.
    apply load16_store16. w16_lia.
  - intros a Ha. rewrite !store16_other; [reflexivity| | | |];
      intros ->; apply Ha.
    + exists 2. split; [lia | w16_lia].
    + exists 1. split; [lia | w16_lia].
    + exists 4. split; [lia | w16_lia].
    + exists 3. split; [lia | w16_lia].
Qed.

Lemma mulsi3_order_spec s :
  RBS s = RB0 ->
  let aL := load16 (MEM s) (SP s + 8) in
  let bL := load16 (MEM s) (SP s + 12) in
  let s' := movw BC (Imm 0) (mulsi3_order (mulsi3_cross_to_high s)) in
  RBS s' = RB0 /\ SP s' = SP s /\ MEM s' = MEM s /\
  REG s' RB0 AX = Z.min aL bL /\ REG s' RB1 BC = Z.max aL bL /\
  REG s' RB0 BC = 0 /\ REG s' RB1 AX = 0 /\ REG s' RB2 AX = REG s RB1 AX /\
  (forall b r, hisi_scratch b r = false -> REG s' b r = REG s b r).
Proof.
  destruct s as [b R c z sp m]; cbn [RBS SP MEM]; intros ->.
  unfold mulsi3_order, mulsi3_cross_to_high. exec.
  destruct (Z.ltb_spec (load16 m (sp + 12)) (load16 m (sp + 8))); exec.
  - do 3 (split; [reflexivity|]). split; [lia|]. split; [lia|].
    do 3 (split; [reflexivity|]). intros [] []; cbn; congruence.
  - do 3 (split; [reflexivity|]). split; [lia|]. split; [lia|].
    do 3 (split; [reflexivity|]). intros [] []; cbn; congruence.
Qed.

Lemma Lmul_hisi_done_spec s :
  RBS s = RB0 ->
  let s' := Lmul_hisi_done s in
  RBS s' = RB0 /\ SP s' = w16 (SP s + 8) /\ MEM s' = MEM s /\
  REG s' RB1 AX = REG s RB1 AX /\ REG s' RB1 BC = REG s RB2 AX /\
  REG s' RB2 BC = load16 (MEM s) (SP s) /\
  REG s' RB2 AX = load16 (MEM s) (SP s + 2) /\
  (forall b r, done_scratch b r = false -> REG s' b r = REG s b r).
Proof.
  destruct s as [b R c z sp m]; cbn [RBS SP MEM]; intros ->.
  unfold Lmul_hisi_done. exec.
  split; [reflexivity|]. split; [w16_lia|].
  do 4 (split; [reflexivity|]).
  split; [apply load16_eqaddr; w16_lia|].
  intros [] []; cbn; congruence.
Qed.

Lemma high_word_eqm x : eqm 4294967296 (65536 * w16 x) (65536 * x).
Proof. unfold eqm. w16_lia. Qed.

Lemma product_eqm aL aH bL bH :
  eqm 4294967296 ((aL + 65536 * aH) * (bL + 65536 * bH))
                 (aL * bL + 65536 * (aL * bH + aH * bL)).
Proof.
  unfold eqm.
  replace ((aL + 65536 * aH) * (bL + 65536 * bH))
    with (aL * bL + 65536 * (aL * bH + aH * bL) + (aH * bH) * 4294967296) by ring.
  apply Z_mod_plus_full.
Qed.

Lemma min_max_mul a b : Z.min a b * Z.max a b = a * b.
Proof.
  destruct (Z.le_ge_cases a b).
  - rewrite Z.min_l, Z.max_r by lia. reflexivity.
  - rewrite Z.min_r, Z.max_l by lia. ring.
Qed.

Section Mulsi3_proofs.
Variables ret_1 ret_2 : Z.

Lemma mulsi3_run k1 k2 k3 fuel s :
  let aL := arg16 4 s in
  let aH := arg16 6 s in
  let bL := arg16 8 s in
  let bH := arg16 10 s in
  (bH = 0 \/ bH = 65535 \/ aL = 0 \/
   ((k1 < fuel)%nat /\ (aL < 2 ^ Z.of_nat k1 \/ bH < 2 ^ Z.of_nat k1))) ->
  (aH = 0 \/ aH = 65535 \/ bL = 0 \/
   ((k2 < fuel)%nat /\ (bL < 2 ^ Z.of_nat k2 \/ aH < 2 ^ Z.of_nat k2))) ->
  (k3 <= fuel)%nat -> (1 <= fuel)%nat -> Z.min aL bL < 4 ^ Z.of_nat k3 ->
  exists s', ___mulsi3 ret_1 ret_2 fuel s = Some s' /\
    0 <= REG s' RB1 AX < 65536 /\ 0 <= REG s' RB1 BC < 65536 /\
    eqm 4294967296 (R8_R11 s') (aL * bL + 65536 * (aL * bH + aH * bL)) /\
    RBS s' = RB0 /\ SP s' = w16 (SP s + 4) /\
    REG s' RB2 AX = w16 (REG s RB2 AX) /\
    REG s' RB2 BC = w16 (REG s RB2 BC) /\
    (forall b r, mulsi3_touched b r = false -> REG s' b r = REG s b r) /\
    (forall a, ~ below (SP s) 8 a -> MEM s' a = MEM s a).
Proof.
  intros aL aH bL bH Hc1 Hc2 Hf3 Hf1 Hmin. unfold arg16, read in aL, aH, bL, bH.
  unfold ___mulsi3.
  pose proof (mulsi3_prologue_spec s) as H1. cbv zeta in H1 |- *.
  revert H1. generalize (mulsi3_prologue s). intros s1 H1.
  destruct H1 as (Hb1 & Hsp1 & Hr8 & Hr16 & Hfr1 & Hpop_bc & Hpop_ax & Hmem1).
  assert (Hsp1r : 0 <= SP s1 < 65536) by (rewrite Hsp1; apply w16_range).
  assert (Hargs : forall j, 0 <= j <= 6 ->
             load16 (MEM s1) (SP s1 + (j + 8)) = load16 (MEM s) (SP s + (j + 4))).
  { intros j Hj. rewrite (load16_eqaddr (MEM s1) (SP s1 + (j + 8)) (SP s + (j + 4)))
      by (rewrite Hsp1; w16_lia).
    apply load16_frame; apply Hmem1; intros (i & Hi & E); w16_lia. }
  pose proof (Hargs 0 ltac:(lia)) as HaL.
  pose proof (Hargs 2 ltac:(lia)) as HaH.
  pose proof (Hargs 4 ltac:(lia)) as HbL.
  pose proof (Hargs 6 ltac:(lia)) as HbH.
  change (0 + 8) with 8 in HaL. change (0 + 4) with 4 in HaL.
  change (2 + 8) with 10 in HaH. change (2 + 4) with 6 in HaH.
  change (4 + 8) with 12 in HbL. change (4 + 4) with 8 in HbL.
  change (6 + 8) with 14 in HbH. change (6 + 4) with 10 in HbH.
  fold aL in HaL. fold aH in HaH.
  fold bL in HbL. fold bH in HbH.
  (* first cross term *)
  destruct (cross_term_gen ret_1 14 8 k1 fuel s1 Hb1 ltac:(lia) Hsp1r)
    as (s2 & Hrun2 & Hacc2 & Hb2 & Hsp2 & Hmem2 & Hfr2).
  { rewrite HaL, HbH. exact Hc1. }
  rewrite Hrun2. cbn [bind].
  rewrite HaL, HbH, Hr8, Z.add_0_l in Hacc2.
  assert (Hld2 : forall k, 0 <= k <= 14 ->
             load16 (MEM s2) (SP s1 + k) = load16 (MEM s1) (SP s1 + k)).
  { intros k Hk. apply (load16_above _ _ _ 4 _ Hmem2); lia. }
  (* second cross term *)
  destruct (cross_term_gen ret_2 10 12 k2 fuel s2 Hb2) as
    (s3 & Hrun3 & Hacc3 & Hb3 & Hsp3 & Hmem3 & Hfr3).
  { rewrite Hacc2. apply w16_range. }
  { rewrite Hsp2. exact Hsp1r. }
  { rewrite Hsp2, !Hld2, HaH, HbL by lia. exact Hc2. }
  rewrite Hrun3. cbn [bind].
  rewrite Hsp2, !Hld2, HaH, HbL, Hacc2 in Hacc3 by lia.
  rewrite Hsp2 in Hsp3, Hmem3.
  assert (Hld3 : forall k, 0 <= k <= 14 ->
             load16 (MEM s3) (SP s1 + k) = load16 (MEM s1) (SP s1 + k)).
  { intros k Hk. rewrite <- Hld2 by exact Hk.
    apply (load16_above _ _ _ 4 _ Hmem3); lia. }
  (* ordering of the low words *)
  pose proof (mulsi3_order_spec s3 Hb3) as H4. cbv zeta in H4.
  revert H4. generalize (movw BC (Imm 0) (mulsi3_order (mulsi3_cross_to_high s3))).
  intros s4 H4.
  destruct H4 as (Hb4 & Hsp4 & Hmem4 & Hm4 & Hc4 & Hch4 & Hlo4 & Hhi4 & Hfr4).
  rewrite Hsp3, !Hld3, HaL, HbL in Hm4, Hc4 by lia.
  pose proof (load16_range (MEM s) (SP s + 4)) as RaL. fold aL in RaL.
  pose proof (load16_range (MEM s) (SP s + 8)) as RbL. fold bL in RbL.
  (* the loop *)
  destruct (Lmul_hisi_loop_spec k3 fuel s4 Hf3 Hf1 Hb4)
    as (s5 & Hrun5 & Hacc5 & Hwf5 & Hb5 & Hsp5 & Hmem5 & Hfr5).
  { unfold hisi_wf. rewrite Hlo4, Hhi4, Hc4, Hch4, Hacc3.
    pose proof (w16_range (w16 (aL * bH) + bL * aH)). lia. }
  { rewrite Hm4. lia. }
  { rewrite Hm4. lia. }
  rewrite Hrun5. cbn [bind].
  unfold acc32, op32 in Hacc5.
  rewrite Hlo4, Hhi4, Hm4, Hc4, Hch4, Hacc3 in Hacc5.
  destruct Hwf5 as (Rlo & Rhi & _ & _).
  (* epilogue *)
  pose proof (Lmul_hisi_done_spec s5 Hb5) as H6. cbv zeta in H6.
  revert H6. generalize (Lmul_hisi_done s5). intros s6 H6.
  destruct H6 as (Hb6 & Hsp6 & Hmem6 & Hlo6 & Hhi6 & Hbc6 & Hax6 & Hfr6).
  exists s6. split; [reflexivity|].
  rewrite Hsp5, Hsp4, Hsp3 in Hsp6, Hbc6, Hax6.
  rewrite Hmem5, Hmem4 in Hbc6, Hax6, Hmem6.
  refine (conj _ (conj _ (conj _ (conj Hb6 (conj _ (conj _ (conj _ (conj _ _)))))))).
  - rewrite Hlo6. exact Rlo.
  - rewrite Hhi6. exact Rhi.
  - unfold R8_R11, read. cbn [vreg_bank vreg_pair]. rewrite Hlo6, Hhi6, Hacc5.
    rewrite high_word_eqm, Z.mul_add_distr_l, high_word_eqm.
    apply eqm_of_eq. rewrite Z.mul_0_r, Z.add_0_r, min_max_mul. ring.
  - rewrite Hsp6, Hsp1. w16_lia.
  - rewrite Hax6, (Hld3 2) by lia. exact Hpop_ax.
  - rewrite Hbc6, <- Hpop_bc.
    rewrite (load16_eqaddr (MEM s3) (SP s1) (SP s1 + 0)),
            (load16_eqaddr (MEM s1) (SP s1) (SP s1 + 0)) by (f_equal; lia).
    apply Hld3. lia.
  - intros b r Hbr. rewrite Hfr6, Hfr5, Hfr4, Hfr3, Hfr2, Hfr1;
      [reflexivity | ..]; clear - Hbr;
      destruct b, r; first [reflexivity | discriminate Hbr].
  - intros a Ha. rewrite Hmem6, Hmem3, Hmem2, Hmem1; [reflexivity| | |].
    + intros Hbel. apply Ha. apply (below_mono _ 4 8); [lia | exact Hbel].
    + intros Hbel. apply Ha. rewrite Hsp1 in Hbel.
      apply (below_shift _ 4 4); [lia | exact Hbel].
    + intros Hbel. apply Ha. rewrite Hsp1 in Hbel.
      apply (below_shift _ 4 4); [lia | exact Hbel].
Qed.

End Mulsi3_proofs.

(** ** The routines as a whole *)

Lemma pow4_8 : 4 ^ Z.of_nat 8 = 65536.
Proof. reflexivity. Qed.

Lemma arg16_range k s : 0 <= arg16 k s < 65536.
Proof. unfold arg16, read. apply load16_range. Qed.

Lemma arg32_words s k : arg32 k s = arg16 k s + 65536 * arg16 (k + 2) s.
Proof. reflexivity. Qed.

Lemma arg32_range k s : 0 <= arg32 k s < 4294967296.
Proof.
  rewrite arg32_words.
  pose proof (arg16_range k s). pose proof (arg16_range (k + 2) s). lia.
Qed.

Lemma eqm32_small a b :
  0 <= a < 4294967296 -> eqm 4294967296 a b -> a = b mod 4294967296.
Proof. intros Ha H. unfold eqm in H. rewrite <- H. symmetry. apply Z.mod_small. exact Ha. Qed.

Section Mulsi3_whole.
Variables ret_1 ret_2 : Z.

(** With fuel for 17 passes the routine returns, whatever the operands. *)
Lemma mulsi3_full fuel s :
  (16 < fuel)%nat ->
  exists s', ___mulsi3 ret_1 ret_2 fuel s = Some s' /\
    0 <= REG s' RB1 AX < 65536 /\ 0 <= REG s' RB1 BC < 65536 /\
    eqm 4294967296 (R8_R11 s')
        (arg16 4 s * arg16 8 s +
         65536 * (arg16 4 s * arg16 10 s + arg16 6 s * arg16 8 s)) /\
    RBS s' = RB0 /\ SP s' = w16 (SP s + 4) /\
    REG s' RB2 AX = w16 (REG s RB2 AX) /\
    REG s' RB2 BC = w16 (REG s RB2 BC) /\
    (forall b r, mulsi3_touched b r = false -> REG s' b r = REG s b r) /\
    (forall a, ~ below (SP s) 8 a -> MEM s' a = MEM s a).
Proof.
  intros Hf.
  pose proof (arg16_range 4 s). pose proof (arg16_range 8 s).
  apply (mulsi3_run ret_1 ret_2 16 16 8 fuel s); rewrite ?pow2_16, ?pow4_8; lia.
Qed.

Lemma R8_R11_range s :
  0 <= REG s RB1 AX < 65536 -> 0 <= REG s RB1 BC < 65536 ->
  0 <= R8_R11 s < 4294967296.
Proof. unfold R8_R11, read. cbn [vreg_bank vreg_pair]. lia. Qed.

Lemma mulsi3_product fuel s :
  (16 < fuel)%nat ->
  exists s', ___mulsi3 ret_1 ret_2 fuel s = Some s' /\
    R8_R11 s' = (arg32 4 s * arg32 8 s) mod 4294967296.
Proof.
  intros Hf.
  destruct (mulsi3_full fuel s Hf) as (s' & Hrun & Rlo & Rhi & Hres & _).
  exists s'. split; [exact Hrun|].
  apply eqm32_small; [apply R8_R11_range; assumption|].
  rewrite Hres, !arg32_words. symmetry. apply product_eqm.
Qed.

End Mulsi3_whole.

(** ** The claims about mulsi3.S *)

(** C1.  For every pair of 32-bit operands at [sp+4] and [sp+8], [___mulsi3]
    returns in R8..R11 the low 32 bits of their product; the value is the low
    partial product aL*bL plus the sum of the two cross terms, reduced to 16
    bits, in the high word. *)
Theorem mulsi3_low_32_bits_of_product ret_1 ret_2 fuel s :
  (16 < fuel)%nat ->
  let aL := arg16 4 s in
  let aH := arg16 6 s in
  let bL := arg16 8 s in
  let bH := arg16 10 s in
  exists s', ___mulsi3 ret_1 ret_2 fuel s = Some s' /\
    R8_R11 s' = (arg32 4 s * arg32 8 s) mod 2 ^ 32 /\
    R8_R11 s' =
      (aL * bL + 2 ^ 16 * ((aL * bH + aH * bL) mod 2 ^ 16)) mod 2 ^ 32.
Proof.
  intros Hf aL aH bL bH.
  change (2 ^ 32) with 4294967296. change (2 ^ 16) with 65536.
  destruct (mulsi3_full ret_1 ret_2 fuel s Hf) as (s' & Hrun & Rlo & Rhi & Hres & _).
  exists s'. split; [exact Hrun|].
  pose proof (R8_R11_range s' Rlo Rhi) as Hr.
  split; apply eqm32_small; try exact Hr; rewrite Hres.
  - rewrite !arg32_words. symmetry. apply product_eqm.
  - fold aL aH bL bH. symmetry.
    change ((aL * bH + aH * bL) mod 65536) with (w16 (aL * bH + aH * bL)).
    rewrite high_word_eqm. reflexivity.
Qed.

(** C2.  For every pair of 16-bit operands at [sp+4] and [sp+6], [___mulhi3]
    (entered with bank 0 selected, as compiled code always runs) returns in
    R8 the low 16 bits of their product. *)
Theorem mulhi3_low_16_bits_of_product fuel s :
  (16 < fuel)%nat -> RBS s = RB0 ->
  exists s', ___mulhi3 fuel s = Some s' /\
    read r8 s' = (arg16 4 s * arg16 6 s) mod 2 ^ 16.
Proof.
  intros Hf Hb.
  destruct (___mulhi3_spec fuel s Hf Hb) as (s' & Hrun & Hres & _).
  exists s'. split; [exact Hrun | exact Hres].
Qed.

Lemma shrw_iter r : forall n s,
  RBS (shrw r n s) = RBS s /\
  read r (shrw r n s) = Z.shiftr (read r s) (Z.of_nat n).
Proof.
  induction n as [|n IH]; intros s.
  - split; [reflexivity|]. cbn [shrw Nat.iter Z.of_nat]. rewrite Z.shiftr_0_r. reflexivity.
  - destruct (IH s) as (Hb & Hv).
    change (shrw r (S n) s) with (shrw1 r (shrw r n s)).
    set (t := shrw r n s) in *.
    assert (E : read r (shrw1 r t) = Z.shiftr (read r t) 1).
    { destruct t as [b R c z sp m]. unfold shrw1, read, write, set_reg, set_CY.
      cbn [RBS REG]. destruct b, r; reflexivity. }
    split.
    + rewrite <- Hb. destruct t; reflexivity.
    + rewrite E, Hv, Z.shiftr_shiftr by lia. f_equal. lia.
Qed.

Lemma wf_state_hisi s : wf_state s -> hisi_wf s.
Proof. intros [H _]. unfold hisi_wf. repeat split; apply H. Qed.

Lemma read_reg_bank0 r s : RBS s = RB0 -> read (Reg r) s = REG s RB0 r.
Proof. intros H. unfold read. rewrite H. reflexivity. Qed.

(** One pass through [.Lmul_hi_loop]: either the routine returns, and then AX
    is 0, or control is back at the label with AX shifted right by one or by
    two places; which of the two does not depend on the fuel left. *)
Lemma Lmul_hi_loop_pass s :
  RBS s = RB0 -> 0 <= REG s RB0 AX < 65536 ->
  (exists s', (forall fuel, Lmul_hi_loop (S fuel) s = Some s') /\
              RBS s' = RB0 /\ REG s' RB0 AX = 0) \/
  (exists s1, (forall fuel, Lmul_hi_loop (S fuel) s = Lmul_hi_loop fuel s1) /\
              RBS s1 = RB0 /\ 0 < REG s RB0 AX /\
              (REG s1 RB0 AX = Z.shiftr (REG s RB0 AX) 1 \/
               REG s1 RB0 AX = Z.shiftr (Z.shiftr (REG s RB0 AX) 1) 1)).
Proof.
  destruct s as [b R c z sp m]; cbn [RBS REG]; intros -> Hm.
  pose proof (shiftr1_le (R RB0 AX) ltac:(lia)) as Hle1.
  pose proof (shiftr1_le (Z.shiftr (R RB0 AX) 1) ltac:(lia)) as Hle2.
  pose proof (bit_half (R RB0 AX)) as Hbit.
  destruct (Z.testbit (R RB0 AX) 0) eqn:Ho.
  - right. eexists. split; [intros fuel; exec; rewrite Ho; reflexivity|].
    exec. split; [reflexivity|]. split; [cbn [Z.b2z] in Hbit; lia|].
    left. reflexivity.
  - destruct (Z.eqb_spec (Z.shiftr (R RB0 AX) 1) 0) as [Hz|Hz].
    + left. eexists.
      split; [intros fuel; exec; rewrite Ho, cmpw_zero, Hz by lia; reflexivity|].
      exec. split; [reflexivity | exact Hz].
    + destruct (Z.testbit (Z.shiftr (R RB0 AX) 1) 0) eqn:Ho2.
      * right. eexists.
        split; [intros fuel; exec; rewrite Ho, cmpw_zero by lia;
                destruct (Z.eqb_spec (Z.shiftr (R RB0 AX) 1) 0); [lia|];
                rewrite Ho2; reflexivity|].
        exec. split; [reflexivity|]. split; [lia|]. right. reflexivity.
      * destruct (Z.eqb_spec (Z.shiftr (Z.shiftr (R RB0 AX) 1) 1) 0) as [Hz2|Hz2].
        -- exfalso. apply Hz. apply (even_half_zero _ Ho2 Hz2).
        -- right. eexists.
           split; [intros fuel; exec; rewrite Ho, cmpw_zero by lia;
                   destruct (Z.eqb_spec (Z.shiftr (R RB0 AX) 1) 0); [lia|];
                   rewrite Ho2, cmpw_zero by lia;
                   destruct (Z.eqb_spec (Z.shiftr (Z.shiftr (R RB0 AX) 1) 1) 0);
                   [lia | reflexivity]|].
           exec. split; [reflexivity|]. split; [lia|]. right. reflexivity.
Qed.

Lemma shiftr2_small m k :
  0 <= m < 2 ^ Z.of_nat (S k) ->
  0 <= Z.shiftr (Z.shiftr m 1) 1 < 2 ^ Z.of_nat k.
Proof.
  intros H. pose proof (shiftr1_bound m k H) as H1.
  pose proof (shiftr1_le (Z.shiftr m 1) ltac:(lia)). lia.
Qed.

(** [.Lmul_hi_loop] is left with AX = 0. *)
Lemma Lmul_hi_loop_exit : forall (k fuel : nat) s,
  (k < fuel)%nat -> RBS s = RB0 ->
  0 <= REG s RB0 AX < 2 ^ Z.of_nat k -> REG s RB0 AX < 65536 ->
  exists s', Lmul_hi_loop fuel s = Some s' /\ RBS s' = RB0 /\ REG s' RB0 AX = 0.
Proof.
  induction k as [|k IH]; intros fuel s Hf Hb Hm Hw;
    (destruct fuel as [|fuel]; [lia|]);
    destruct (Lmul_hi_loop_pass s Hb ltac:(lia))
      as [(s' & Hrun & Hb' & Hz) | (s1 & Hrun & Hb1 & Hpos & Hs1)];
    try (exists s'; split; [apply Hrun | split; assumption]).
  - change (2 ^ Z.of_nat 0) with 1 in Hm. lia.
  - rewrite Hrun.
    pose proof (shiftr1_bound _ _ Hm) as B1.
    pose proof (shiftr2_small _ _ Hm) as B2.
    pose proof (shiftr1_le (REG s RB0 AX) ltac:(lia)) as L1.
    pose proof (shiftr1_le (Z.shiftr (REG s RB0 AX) 1) ltac:(lia)) as L2.
    apply IH; try assumption; try lia; destruct Hs1 as [-> | ->]; lia.
Qed.

(** After 16 passes through [.Lmul_hi_loop] the multiplier is zero: either
    the routine has returned within them, or the state that arrives at the
    label for the 17th pass has AX = 0. *)
Lemma Lmul_hi_loop_zero_within : forall (k : nat) s,
  RBS s = RB0 -> 0 <= REG s RB0 AX < 2 ^ Z.of_nat k -> REG s RB0 AX < 65536 ->
  (exists s', Lmul_hi_loop k s = Some s' /\ RBS s' = RB0 /\ REG s' RB0 AX = 0) \/
  (exists sk, RBS sk = RB0 /\ REG sk RB0 AX = 0 /\
              forall n, Lmul_hi_loop (k + n) s = Lmul_hi_loop n sk).
Proof.
  induction k as [|k IH]; intros s Hb Hm Hw.
  - right. exists s. change (2 ^ Z.of_nat 0) with 1 in Hm.
    split; [exact Hb|]. split; [lia | reflexivity].
  - destruct (Lmul_hi_loop_pass s Hb ltac:(lia))
      as [(s' & Hrun & Hb' & Hz) | (s1 & Hrun & Hb1 & Hpos & Hs1)].
    + left. exists s'. split; [apply Hrun | split; assumption].
    + pose proof (shiftr1_bound _ _ Hm) as B1.
      pose proof (shiftr2_small _ _ Hm) as B2.
      pose proof (shiftr1_le (REG s RB0 AX) ltac:(lia)) as L1.
      pose proof (shiftr1_le (Z.shiftr (REG s RB0 AX) 1) ltac:(lia)) as L2.
      destruct (IH s1 Hb1) as [(s' & Hr & Hb' & Hz) | (sk & Hbk & Hzk & Hr)];
        try (destruct Hs1 as [-> | ->]; lia).
      * left. exists s'. rewrite Hrun. split; [exact Hr | split; assumption].
      * right. exists sk. split; [exact Hbk|]. split; [exact Hzk|].
        intros n. change (S k + n)%nat with (S (k + n)). rewrite Hrun. apply Hr.
Qed.

(** [.Lmul_hisi_loop] is left with AX = 0. *)
Lemma Lmul_hisi_loop_exit : forall (k fuel : nat) s,
  (k <= fuel)%nat -> (1 <= fuel)%nat -> RBS s = RB0 -> hisi_wf s ->
  0 <= REG s RB0 AX < 4 ^ Z.of_nat k -> REG s RB0 AX < 65536 ->
  exists s', Lmul_hisi_loop fuel s = Some s' /\ RBS s' = RB0 /\ REG s' RB0 AX = 0.
Proof.
  induction k as [|k IH]; intros fuel s Hf Hf1 Hb Hwf Hm Hw;
    (destruct fuel as [|fuel]; [lia|]); rewrite Lmul_hisi_loop_S; cbv zeta;
    destruct (Lmul_hisi_step_spec s Hb Hwf)
      as (Hb1 & Hm1 & Hz1 & _ & _ & Hwf1 & _);
    pose proof (shiftr1_le (REG s RB0 AX) ltac:(lia)) as Hle1;
    rewrite cmpw_zero in Hz1 by lia; rewrite Hz1.
  - assert (Z.shiftr (REG s RB0 AX) 1 = 0) as E
      by (change (4 ^ Z.of_nat 0) with 1 in Hm; lia).
    rewrite E. change (0 =? 0) with true. cbv iota.
    eexists. split; [reflexivity|]. split; [exact Hb1 | rewrite Hm1; exact E].
  - destruct (Z.eqb_spec (Z.shiftr (REG s RB0 AX) 1) 0) as [Hz|Hz].
    + eexists. split; [reflexivity|]. split; [exact Hb1 | rewrite Hm1; exact Hz].
    + destruct (Lmul_hisi_step_spec (Lmul_hisi_step s) Hb1 Hwf1)
        as (Hb2 & Hm2 & Hz2 & _ & _ & Hwf2 & _).
      rewrite Hm1 in Hm2, Hz2.
      pose proof (shiftr1_le (Z.shiftr (REG s RB0 AX) 1) ltac:(lia)) as Hle2.
      pose proof (shiftr2_bound _ _ Hm) as Hm4.
      rewrite cmpw_zero in Hz2 by lia. rewrite Hz2.
      destruct (Z.eqb_spec (Z.shiftr (Z.shiftr (REG s RB0 AX) 1) 1) 0) as [Hz4|Hz4];
        cbn [negb]; cbv iota.
      * eexists. split; [reflexivity|]. split; [exact Hb2 | rewrite Hm2; exact Hz4].
      * assert (k <> 0%nat) as Hk.
        { intros ->. change (4 ^ Z.of_nat 0) with 1 in Hm4. lia. }
        apply IH; try assumption; try lia; rewrite Hm2; lia.
Qed.

(** C3.  The shift-and-add loops terminate.  Each iteration shifts the
    remaining multiplier right: a step of [.Lmul_hisi_loop] halves AX, a pass
    through [.Lmul_hi_loop] either returns with AX = 0 or comes back to the
    label with AX shifted by one or two places.  So the multiplier is zero
    within 16 iterations: [.Lmul_hisi_loop] returns with AX = 0 within 8
    passes of its doubly unrolled body, and after 16 passes through
    [.Lmul_hi_loop] the routine has returned or AX is 0 (the next pass then
    returns).  Both loops return with AX = 0 and both routines return, with
    the product. *)
Theorem multiply_loops_terminate ret_1 ret_2 (fuel passes : nat) s :
  (16 < fuel)%nat -> (8 <= passes)%nat -> RBS s = RB0 -> wf_state s ->
  read AX (shrw AX 1 s) = read AX s / 2 /\
  read AX (shrw AX 16 s) = 0 /\
  read AX (Lmul_hisi_step s) = read AX s / 2 /\
  ((exists s', (forall n, Lmul_hi_loop (S n) s = Some s') /\ read AX s' = 0) \/
   (exists s1, (forall n, Lmul_hi_loop (S n) s = Lmul_hi_loop n s1) /\
               RBS s1 = RB0 /\ 0 < read AX s /\
               (read AX s1 = read AX s / 2 \/ read AX s1 = read AX s / 2 / 2))) /\
  ((exists s', Lmul_hi_loop 16 s = Some s' /\ read AX s' = 0) \/
   (exists s16, RBS s16 = RB0 /\ read AX s16 = 0 /\
                forall n, Lmul_hi_loop (16 + n) s = Lmul_hi_loop n s16)) /\
  (exists s', Lmul_hi_loop fuel s = Some s' /\ read AX s' = 0) /\
  (exists s', Lmul_hisi_loop passes s = Some s' /\ read AX s' = 0) /\
  (exists s', ___mulsi3 ret_1 ret_2 fuel s = Some s' /\
              R8_R11 s' = (arg32 4 s * arg32 8 s) mod 2 ^ 32) /\
  (exists s', ___mulhi3 fuel s = Some s' /\
              read r8 s' = (arg16 4 s * arg16 6 s) mod 2 ^ 16).
Proof.
  intros Hf Hp Hb Hwf.
  assert (Hax : 0 <= REG s RB0 AX < 65536) by apply Hwf.
  assert (Hrd : read AX s = REG s RB0 AX) by (apply read_reg_bank0; exact Hb).
  pose proof (wf_state_hisi s Hwf) as Hh.
  rewrite Hrd.
  split; [|split; [|split; [|split; [|split; [|split; [|split; [|split]]]]]]].
  - rewrite (proj2 (shrw_iter AX 1 s)), Hrd. apply shiftr1.
  - rewrite (proj2 (shrw_iter AX 16 s)), Hrd, Z.shiftr_div_pow2 by lia.
    apply Z.div_small. exact Hax.
  - destruct (Lmul_hisi_step_spec s Hb Hh) as (Hb1 & Hm1 & _).
    rewrite (read_reg_bank0 AX _ Hb1), Hm1. apply shiftr1.
  - destruct (Lmul_hi_loop_pass s Hb Hax)
      as [(s' & Hrun & Hb' & Hz) | (s1 & Hrun & Hb1 & Hpos & Hs1)].
    + left. exists s'. split; [exact Hrun|].
      rewrite (read_reg_bank0 AX _ Hb'). exact Hz.
    + right. exists s1. split; [exact Hrun|]. split; [exact Hb1|].
      split; [exact Hpos|].
      rewrite (read_reg_bank0 AX _ Hb1), <- !shiftr1. exact Hs1.
  - destruct (Lmul_hi_loop_zero_within 16 s Hb)
      as [(s' & Hr & Hb' & Hz) | (sk & Hbk & Hzk & Hr)]; rewrite ?pow2_16; try lia.
    + left. exists s'. split; [exact Hr|].
      rewrite (read_reg_bank0 AX _ Hb'). exact Hz.
    + right. exists sk. split; [exact Hbk|].
      split; [rewrite (read_reg_bank0 AX _ Hbk); exact Hzk | exact Hr].
  - destruct (Lmul_hi_loop_exit 16 fuel s Hf Hb) as (s' & Hrun & Hb' & Hz);
      rewrite ?pow2_16; try lia.
    exists s'. split; [exact Hrun|]. rewrite (read_reg_bank0 AX _ Hb'). exact Hz.
  - destruct (Lmul_hisi_loop_exit 8 passes s Hp ltac:(lia) Hb Hh)
      as (s' & Hrun & Hb' & Hz); rewrite ?pow4_8; try lia.
    exists s'. split; [exact Hrun|]. rewrite (read_reg_bank0 AX _ Hb'). exact Hz.
  - apply mulsi3_product. exact Hf.
  - destruct (___mulhi3_spec fuel s Hf Hb) as (s' & Hrun & Hres & _).
    exists s'. split; [exact Hrun | exact Hres].
Qed.

Lemma signed32_eqm x : eqm 4294967296 (signed32 x) x.
Proof.
  unfold signed32, eqm. destruct (x <? 2147483648); [reflexivity|].
  replace (x - 4294967296) with (x + (-1) * 4294967296) by ring.
  apply Z_mod_plus_full.
Qed.

(** C4.  Signed and unsigned multiplication share the helper: the low 32
    bits of the product of the operands read as two's-complement numbers are
    the low 32 bits of their unsigned product, and that is what [___mulsi3]
    returns. *)
Theorem mulsi3_signed_and_unsigned_agree ret_1 ret_2 fuel s :
  (16 < fuel)%nat ->
  let a := arg32 4 s in
  let b := arg32 8 s in
  (signed32 a * signed32 b) mod 2 ^ 32 = (a * b) mod 2 ^ 32 /\
  exists s', ___mulsi3 ret_1 ret_2 fuel s = Some s' /\
    R8_R11 s' = (a * b) mod 2 ^ 32 /\
    R8_R11 s' = (signed32 a * signed32 b) mod 2 ^ 32.
Proof.
  intros Hf a b. change (2 ^ 32) with 4294967296.
  assert (E : (signed32 a * signed32 b) mod 4294967296 = (a * b) mod 4294967296).
  { change (eqm 4294967296 (signed32 a * signed32 b) (a * b)).
    rewrite !signed32_eqm. reflexivity. }
  split; [exact E|].
  destruct (mulsi3_product ret_1 ret_2 fuel s Hf) as (s' & Hrun & Hres).
  exists s'. split; [exact Hrun|]. split; [exact Hres|].
  rewrite E. exact Hres.
Qed.



Lemma pow_0 b : b ^ Z.of_nat 0 = 1.
Proof. reflexivity. Qed.

Lemma pow_1 b : b ^ Z.of_nat 1 = b.
Proof. change (Z.of_nat 1) with 1. apply Z.pow_1_r. Qed.

Lemma arg32_zero k s : arg32 k s = 0 -> arg16 k s = 0 /\ arg16 (k + 2) s = 0.
Proof.
  rewrite arg32_words.
  pose proof (arg16_range k s). pose proof (arg16_range (k + 2) s). lia.
Qed.

Lemma arg32_one k s : arg32 k s = 1 -> arg16 k s = 1 /\ arg16 (k + 2) s = 0.
Proof.
  rewrite arg32_words.
  pose proof (arg16_range k s). pose proof (arg16_range (k + 2) s). lia.
Qed.

(** C6.  Zero annihilates and one is neutral: [___mulsi3(a,0) = 0],
    [___mulsi3(0,a) = 0] and [___mulsi3(a,1) = a], already with fuel for two
    passes.  A cross term with a zero operand word is skipped without
    entering the multiply loop (the block returns with no fuel at all and
    leaves R8 as it was), and the main loop leaves after its first step when
    the multiplier is 0 or 1. *)
Theorem mulsi3_zero_and_one ret_1 ret_2 fuel s :
  (1 < fuel)%nat ->
  (arg32 8 s = 0 ->
   exists s', ___mulsi3 ret_1 ret_2 fuel s = Some s' /\ R8_R11 s' = 0) /\
  (arg32 4 s = 0 ->
   exists s', ___mulsi3 ret_1 ret_2 fuel s = Some s' /\ R8_R11 s' = 0) /\
  (arg32 8 s = 1 ->
   exists s', ___mulsi3 ret_1 ret_2 fuel s = Some s' /\ R8_R11 s' = arg32 4 s) /\
  (forall ra oH oL, RBS s = RB0 -> wf_state s ->
   arg16 oH s = 0 \/ arg16 oL s = 0 ->
   exists s', cross_term ra oH oL 0 s = Some s' /\ read r8 s' = read r8 s) /\
  (RBS s = RB0 -> wf_state s -> read AX s <= 1 ->
   Lmul_hisi_loop 1 s = Some (Lmul_hisi_step s)).
Proof.
  intros Hf.
  pose proof (arg16_range 4 s) as R4. pose proof (arg16_range 6 s) as R6.
  pose proof (arg16_range 8 s) as R8. pose proof (arg16_range 10 s) as R10.
  split; [|split; [|split; [|split]]].
  - intros Hb. destruct (arg32_zero 8 s Hb) as (HbL & HbH).
    change (8 + 2) with 10 in HbH.
    destruct (mulsi3_run ret_1 ret_2 0 0 0 fuel s)
      as (s' & Hrun & Rlo & Rhi & Hres & _);
      rewrite ?pow_0; try lia.
    exists s'. split; [exact Hrun|].
    rewrite (eqm32_small _ _ (R8_R11_range s' Rlo Rhi) Hres), HbL, HbH.
    rewrite !Z.mul_0_r, Z.add_0_r. reflexivity.
  - intros Ha. destruct (arg32_zero 4 s Ha) as (HaL & HaH).
    change (4 + 2) with 6 in HaH.
    destruct (mulsi3_run ret_1 ret_2 0 0 0 fuel s)
      as (s' & Hrun & Rlo & Rhi & Hres & _);
      rewrite ?pow_0; try lia.
    exists s'. split; [exact Hrun|].
    rewrite (eqm32_small _ _ (R8_R11_range s' Rlo Rhi) Hres), HaL, HaH.
    reflexivity.
  - intros Hb. destruct (arg32_one 8 s Hb) as (HbL & HbH).
    change (8 + 2) with 10 in HbH.
    destruct (mulsi3_run ret_1 ret_2 0 1 1 fuel s)
      as (s' & Hrun & Rlo & Rhi & Hres & _); rewrite ?pow_1; try lia.
    exists s'. split; [exact Hrun|].
    rewrite (eqm32_small _ _ (R8_R11_range s' Rlo Rhi) Hres), HbL, HbH.
    rewrite arg32_words. change (4 + 2) with 6.
    replace (arg16 4 s * 1 + 65536 * (arg16 4 s * 0 + arg16 6 s * 1))
      with (arg16 4 s + 65536 * arg16 6 s) by ring.
    apply Z.mod_small. lia.
  - intros ra oH oL Hb (Hreg & Hsp) Hz.
    destruct (cross_term_gen ra oH oL 0 0 s Hb (Hreg RB1 AX) Hsp)
      as (s' & Hrun & Hacc & _).
    { unfold arg16, read in Hz. tauto. }
    exists s'. split; [exact Hrun|].
    unfold read. cbn [vreg_bank vreg_pair]. rewrite Hacc.
    unfold arg16, read in Hz.
    destruct Hz as [-> | ->]; rewrite ?Z.mul_0_r, ?Z.mul_0_l, Z.add_0_r;
      apply w16_small, Hreg.
  - intros Hb Hwf H1. rewrite Lmul_hisi_loop_S. cbv zeta.
    destruct (Lmul_hisi_step_spec s Hb (wf_state_hisi s Hwf)) as (_ & _ & Hz & _).
    unfold read in H1. rewrite Hb in H1.
    assert (0 <= REG s RB0 AX) by apply Hwf.
    assert (E : Z.shiftr (REG s RB0 AX) 1 = 0).
    { rewrite shiftr1. apply Z.div_small. lia. }
    rewrite Hz, E. reflexivity.
Qed.

(** C8, as the code has it.  [___mulsi3] pushes AX and BC of bank 2 (R16/R17,
    R18/R19) on entry and pops them before returning, so they hold their entry
    values on return.  Besides the result in R8..R11 the routine changes its
    working registers AX and BC of bank 0, nothing else of the register file;
    it returns with bank 0 selected and the return address popped, and of
    memory only the eight bytes under the entry stack pointer may differ. *)
Theorem mulsi3_preserves_caller_registers ret_1 ret_2 fuel s :
  (16 < fuel)%nat ->
  0 <= read r16 s < 65536 -> 0 <= read r18 s < 65536 ->
  exists s', ___mulsi3 ret_1 ret_2 fuel s = Some s' /\
    read r16 s' = read r16 s /\ read r18 s' = read r18 s /\
    (forall b r, mulsi3_scratch b r = false -> REG s' b r = REG s b r) /\
    RBS s' = RB0 /\ SP s' = w16 (SP s + 4) /\
    (forall a, ~ below (SP s) 8 a -> MEM s' a = MEM s a).
Proof.
  unfold read. cbn [vreg_bank vreg_pair]. intros Hf H16 H18.
  destruct (mulsi3_full ret_1 ret_2 fuel s Hf)
    as (s' & Hrun & _ & _ & _ & Hb & Hsp & Hax & Hbc & Hfr & Hmem).
  rewrite w16_small in Hax, Hbc by assumption.
  exists s'. split; [exact Hrun|].
  split; [exact Hax|]. split; [exact Hbc|].
  split; [|split; [exact Hb|split; [exact Hsp | exact Hmem]]].
  intros b r Hbr. destruct (mulsi3_touched b r) eqn:Ht; [|apply Hfr; exact Ht].
  destruct b, r; try discriminate Hbr; try discriminate Ht; assumption.
Qed.

(* ===================================================================== *)
(** * Proofs about the fixtures *)
(* ===================================================================== *)

Lemma span_S from len : span from (S len) = from :: span (from + 1) len.
Proof.
  unfold span. cbn [seq map]. rewrite Z.add_0_r. f_equal.
  rewrite <- seq_shift, map_map. apply map_ext. intros k. lia.
Qed.

Import NeonVshl.

Lemma f1_loop_spec : forall (k : nat) n x y i h,
  Z.to_nat (n - i) = k -> 0 <= i ->
  (forall a b, 0 <= a < n -> 0 <= b < n -> x + a <> y + b) ->
  let h' := f1_loop n x y i h in
  stores h' =
    stores h ++ map (fun j => (y + j, int32 (Z.shiftl (load h (x + j)) 3))) (span i k) /\
  (forall j, i <= j < n -> load h' (y + j) = int32 (Z.shiftl (load h (x + j)) 3)) /\
  (forall a, ~ (y + i <= a < y + n) -> load h' a = load h a).
Proof.
  induction k as [|k IH]; intros n x y i h Hk Hi Hdis; cbv zeta;
    rewrite f1_loop_equation_1; destruct (Z_lt_dec i n) as [Hlt|Hge];
    cbn [f1_loop_unfold_clause_1]; try lia.
  - cbn [span seq map]. rewrite app_nil_r.
    split; [reflexivity|]. split; [intros; lia | reflexivity].
  - set (h1 := store h (y + i) (int32 (Z.shiftl (load h (x + i)) 3))).
    destruct (IH n x y (i + 1) h1 ltac:(lia) ltac:(lia) Hdis) as (Hs & Hy & Hfr).
    assert (Hx : forall j, i <= j < n -> load h1 (x + j) = load h (x + j)).
    { intros j Hj. unfold h1, load, store. cbn [cell].
      destruct (Z.eqb_spec (x + j) (y + i)) as [E|_]; [|reflexivity].
      exfalso. apply (Hdis j i); lia. }
    split; [|split].
    + rewrite Hs, span_S. cbn [map]. unfold h1 at 1. cbn [stores store].
      rewrite <- app_assoc. cbn [app]. f_equal. f_equal.
      apply map_ext_in. intros j Hj. unfold span in Hj.
      apply in_map_iff in Hj. destruct Hj as (q & <- & Hq). apply in_seq in Hq.
      rewrite Hx by lia. reflexivity.
    + intros j Hj. destruct (Z.eq_dec j i) as [->|Hne].
      * rewrite Hfr by lia. unfold h1, load, store. cbn [cell].
        rewrite Z.eqb_refl. reflexivity.
      * rewrite Hy by lia. rewrite Hx by lia. reflexivity.
    + intros a Ha. rewrite Hfr by lia. unfold h1, load, store. cbn [cell].
      destruct (Z.eqb_spec a (y + i)); [lia | reflexivity].
Qed.

Lemma span_length from len : length (span from len) = len.
Proof. unfold span. rewrite length_map, length_seq. reflexivity. Qed.

Lemma shl3_times_8 v : Z.shiftl v 3 = v * 8.
Proof. rewrite Z.shiftl_mul_pow2 by lia. reflexivity. Qed.

(** C9, as the code has it.  For arrays [x] and [y] that do not overlap,
    [f1] stores [x[i] << 3], that is [x[i] * 8] wrapped to 32 bits, into
    [y[i]] for [0 <= i < n], in increasing order of [i], and these are its
    only stores:
    [x] and everything outside [y[0..n-1]] keep their contents, and for
    [n <= 0] nothing is stored. *)
Theorem f1_stores_shifted_elements n x y h :
  (forall a b, 0 <= a < n -> 0 <= b < n -> x + a <> y + b) ->
  let h' := f1 n x y h in
  stores h' =
    stores h ++
    map (fun i => (y + i, int32 (load h (x + i) * 8))) (span 0 (Z.to_nat n)) /\
  (forall i, 0 <= i < n ->
     load h' (y + i) = int32 (load h (x + i) * 8) /\
     load h' (x + i) = load h (x + i)) /\
  (forall a, ~ (y <= a < y + n) -> load h' a = load h a) /\
  (n <= 0 -> h' = h).
Proof.
  intros Hdis. cbv zeta. unfold f1.
  destruct (f1_loop_spec (Z.to_nat n) n x y 0 h) as (Hs & Hy & Hfr);
    [f_equal; lia | lia | exact Hdis |].
  split; [|split; [|split]].
  - rewrite Hs. f_equal. apply map_ext. intros i. rewrite shl3_times_8. reflexivity.
  - intros i Hi. split.
    + rewrite Hy by lia. rewrite shl3_times_8. reflexivity.
    + apply Hfr. intros Hr. apply (Hdis i (x + i - y)); lia.
  - intros a Ha. apply Hfr. lia.
  - intros Hn. rewrite f1_loop_equation_1.
    destruct (Z_lt_dec 0 n); [lia | reflexivity].
Qed.

Import Pr50749.

Lemma int32_zero z : int32 z = 0 <-> z mod 4294967296 = 0.
Proof. unfold int32. split; intros H; Z.div_mod_to_equations; lia. Qed.

Lemma int32_pred z k : int32 (int32 z - k) = int32 (z - k).
Proof. unfold int32. Z.div_mod_to_equations. lia. Qed.

Section Float_proofs.
Variable F : Type.
Variable fadd : F -> F -> F.
Variable fzero : F.

Lemma do_while_runs : forall (n fuel : nat) m p c r log,
  (c - 1) mod 4294967296 = Z.of_nat n -> (n < fuel)%nat ->
  do_while F fadd fuel m p c r log =
    (Some (fold_left fadd (map m (span p (S n))) r), log ++ span p (S n)).
Proof.
  induction n as [|n IH]; intros fuel m p c r log Hc Hf;
    (destruct fuel as [|fuel]; [lia|]); cbn [do_while].
  - assert (E : int32 (c - 1) = 0) by (apply int32_zero; exact Hc).
    rewrite E, span_S. reflexivity.
  - destruct (Z.eqb_spec (int32 (c - 1)) 0) as [E|N].
    + apply int32_zero in E. lia.
    + cbn [negb]. rewrite (IH fuel) by (try lia; unfold int32; Z.div_mod_to_equations; lia).
      rewrite (span_S p (S n)). cbn [map fold_left].
      rewrite <- app_assoc. reflexivity.
Qed.

Lemma do_while_log : forall fuel m p c r log,
  exists k, (k <= fuel)%nat /\
    snd (do_while F fadd fuel m p c r log) = log ++ span p k /\
    (fuel <> 0%nat -> k <> 0%nat).
Proof.
  induction fuel as [|fuel IH]; intros m p c r log; cbn [do_while].
  - exists 0%nat. cbn. rewrite app_nil_r. repeat split; [lia | congruence].
  - destruct (negb (int32 (c - 1) =? 0)).
    + destruct (IH m (p + 1) (int32 (c - 1)) (fadd r (m p)) (log ++ [p]))
        as (k & Hk & Hlog & _).
      exists (S k). rewrite Hlog, span_S, <- app_assoc.
      repeat split; [lia | congruence].
    + exists 1%nat. rewrite span_S. repeat split; [lia | congruence].
Qed.

Lemma do_while_exit : forall fuel m p c r log r' log',
  do_while F fadd fuel m p c r log = (Some r', log') ->
  exists k, (1 <= k <= fuel)%nat /\ log' = log ++ span p k /\
    int32 (c - Z.of_nat k) = 0 /\
    (forall j, 1 <= j < Z.of_nat k -> int32 (c - j) <> 0).
Proof.
  induction fuel as [|fuel IH]; intros m p c r log r' log' H; cbn [do_while] in H.
  - discriminate H.
  - destruct (Z.eqb_spec (int32 (c - 1)) 0) as [E|N]; cbn [negb] in H.
    + injection H as <- <-. exists 1%nat.
      split; [lia|]. split; [rewrite span_S; reflexivity|].
      split; [exact E | intros j Hj; lia].
    + apply IH in H. destruct H as (k & Hk & Hlog & Hz & Hnz).
      exists (S k). split; [lia|].
      split; [rewrite Hlog, span_S, <- app_assoc; reflexivity|].
      rewrite int32_pred in Hz. split.
      * rewrite <- Hz. f_equal. lia.
      * intros j Hj. destruct (Z.eq_dec j 1) as [->|Hj1]; [exact N|].
        specialize (Hnz (j - 1) ltac:(lia)). rewrite int32_pred in Hnz.
        intros E. apply Hnz. rewrite <- E. f_equal. lia.
Qed.

End Float_proofs.

(** C10.  For [1 <= c] (an [int]) [test_func_00] runs the body of its
    do-while exactly [c] times, dereferencing [p], [p+1], ..., [p+c-1] in
    turn, and returns the sum taken from left to right, starting from 0.  For
    any [c'], also 0, the body runs and [p] is dereferenced at least once;
    the loop is only left when the decremented counter is zero, so with
    [c' = 0] it is not left before the counter has gone all the way round. *)
Theorem test_func_00_sums_c_elements
        (F : Type) (fadd : F -> F -> F) (fzero : F) fuel m p c :
  1 <= c < 2147483648 -> (Z.to_nat c <= fuel)%nat ->
  test_func_00 F fadd fzero fuel m p c =
    (Some (fold_left fadd (map m (span p (Z.to_nat c))) fzero),
     span p (Z.to_nat c)) /\
  length (snd (test_func_00 F fadd fzero fuel m p c)) = Z.to_nat c /\
  (forall c', exists rest, snd (test_func_00 F fadd fzero fuel m p c') = p :: rest) /\
  (forall c' r log,
     test_func_00 F fadd fzero fuel m p c' = (Some r, log) ->
     int32 (c' - Z.of_nat (length log)) = 0 /\
     forall j, 1 <= j < Z.of_nat (length log) -> int32 (c' - j) <> 0) /\
  (forall n, Z.of_nat n < 4294967296 ->
     fst (test_func_00 F fadd fzero n m p 0) = None).
Proof.
  intros Hc Hf. unfold test_func_00.
  assert (E : do_while F fadd fuel m p c fzero [] =
              (Some (fold_left fadd (map m (span p (Z.to_nat c))) fzero),
               span p (Z.to_nat c))).
  { replace (Z.to_nat c) with (S (Z.to_nat (c - 1))) by lia.
    apply (do_while_runs F fadd (Z.to_nat (c - 1))); [|lia].
    rewrite Z.mod_small by lia. lia. }
  split; [exact E|]. split; [rewrite E; apply span_length|]. split; [|split].
  - intros c'.
    destruct (do_while_log F fadd fuel m p c' fzero []) as (k & _ & Hlog & Hk).
    destruct k as [|k]; [exfalso; apply Hk; [lia | reflexivity]|].
    rewrite Hlog, span_S. eexists. reflexivity.
  - intros c' r log H.
    destruct (do_while_exit F fadd fuel m p c' fzero [] r log H)
      as (k & _ & -> & Hz & Hnz).
    cbn [app]. rewrite span_length. split; assumption.
  - intros n Hn.
    destruct (do_while F fadd n m p 0 fzero []) as [[r|] log] eqn:H; [|reflexivity].
    exfalso.
    destruct (do_while_exit F fadd n m p 0 fzero [] r log H)
      as (k & Hk & _ & Hz & _).
    apply int32_zero in Hz. Z.div_mod_to_equations. lia.
Qed.

(* ===================================================================== *)
(** * The statements at concrete inputs *)
(* ===================================================================== *)

Lemma demo_state_wf a b : wf_state (demo_state a b).
Proof. split; [intros [] []; cbn; lia | cbn; lia]. Qed.

Lemma mulsi3_low_32_bits_of_product_witness :
  (16 < 17)%nat /\
  let s := demo_state 0x12345678 0x9abcdef0 in
  let aL := arg16 4 s in
  let aH := arg16 6 s in
  let bL := arg16 8 s in
  let bH := arg16 10 s in
  exists s', ___mulsi3 0 0 17 s = Some s' /\
    R8_R11 s' = (arg32 4 s * arg32 8 s) mod 2 ^ 32 /\
    R8_R11 s' =
      (aL * bL + 2 ^ 16 * ((aL * bH + aH * bL) mod 2 ^ 16)) mod 2 ^ 32.
Proof.
  split; [lia|].
  apply (mulsi3_low_32_bits_of_product 0 0 17 (demo_state 0x12345678 0x9abcdef0)).
  lia.
Defined.

Lemma mulhi3_low_16_bits_of_product_witness :
  (16 < 17)%nat /\ RBS (demo_state16 0xffff 0xffff) = RB0 /\
  exists s', ___mulhi3 17 (demo_state16 0xffff 0xffff) = Some s' /\
    read r8 s' =
    (arg16 4 (demo_state16 0xffff 0xffff) * arg16 6 (demo_state16 0xffff 0xffff))
      mod 2 ^ 16.
Proof.
  split; [lia|]. split; [reflexivity|].
  apply (mulhi3_low_16_bits_of_product 17 (demo_state16 0xffff 0xffff));
    [lia | reflexivity].
Defined.

Lemma multiply_loops_terminate_witness :
  (16 < 17)%nat /\ (8 <= 8)%nat /\ RBS (demo_state 3 5) = RB0 /\
  wf_state (demo_state 3 5) /\
  let s := demo_state 3 5 in
  read AX (shrw AX 1 s) = read AX s / 2 /\
  read AX (shrw AX 16 s) = 0 /\
  read AX (Lmul_hisi_step s) = read AX s / 2 /\
  ((exists s', (forall n, Lmul_hi_loop (S n) s = Some s') /\ read AX s' = 0) \/
   (exists s1, (forall n, Lmul_hi_loop (S n) s = Lmul_hi_loop n s1) /\
               RBS s1 = RB0 /\ 0 < read AX s /\
               (read AX s1 = read AX s / 2 \/ read AX s1 = read AX s / 2 / 2))) /\
  ((exists s', Lmul_hi_loop 16 s = Some s' /\ read AX s' = 0) \/
   (exists s16, RBS s16 = RB0 /\ read AX s16 = 0 /\
                forall n, Lmul_hi_loop (16 + n) s = Lmul_hi_loop n s16)) /\
  (exists s', Lmul_hi_loop 17 s = Some s' /\ read AX s' = 0) /\
  (exists s', Lmul_hisi_loop 8 s = Some s' /\ read AX s' = 0) /\
  (exists s', ___mulsi3 0 0 17 s = Some s' /\
              R8_R11 s' = (arg32 4 s * arg32 8 s) mod 2 ^ 32) /\
  (exists s', ___mulhi3 17 s = Some s' /\
              read r8 s' = (arg16 4 s * arg16 6 s) mod 2 ^ 16).
Proof.
  split; [lia|]. split; [lia|]. split; [reflexivity|].
  split; [apply demo_state_wf|].
  apply (multiply_loops_terminate 0 0 17 8 (demo_state 3 5));
    [lia | lia | reflexivity | apply demo_state_wf].
Defined.

Lemma mulsi3_signed_and_unsigned_agree_witness :
  (16 < 17)%nat /\
  let a := arg32 4 (demo_state 0xfffffffe 3) in
  let b := arg32 8 (demo_state 0xfffffffe 3) in
  (signed32 a * signed32 b) mod 2 ^ 32 = (a * b) mod 2 ^ 32 /\
  exists s', ___mulsi3 0 0 17 (demo_state 0xfffffffe 3) = Some s' /\
    R8_R11 s' = (a * b) mod 2 ^ 32 /\
    R8_R11 s' = (signed32 a * signed32 b) mod 2 ^ 32.
Proof.
  split; [lia|].
  apply (mulsi3_signed_and_unsigned_agree 0 0 17 (demo_state 0xfffffffe 3)). lia.
Defined.


Lemma mulsi3_zero_and_one_witness :
  (1 < 2)%nat /\
  arg32 8 (demo_state 0xdeadbeef 0) = 0 /\
  (exists s', ___mulsi3 0 0 2 (demo_state 0xdeadbeef 0) = Some s' /\ R8_R11 s' = 0) /\
  arg32 8 (demo_state 0xdeadbeef 1) = 1 /\
  (exists s', ___mulsi3 0 0 2 (demo_state 0xdeadbeef 1) = Some s' /\
              R8_R11 s' = arg32 4 (demo_state 0xdeadbeef 1)).
Proof.
  split; [lia|]. split; [reflexivity|]. split.
  - apply (proj1 (mulsi3_zero_and_one 0 0 2 (demo_state 0xdeadbeef 0) ltac:(lia))).
    reflexivity.
  - split; [reflexivity|].
    apply (proj1 (proj2 (proj2
             (mulsi3_zero_and_one 0 0 2 (demo_state 0xdeadbeef 1) ltac:(lia))))).
    reflexivity.
Defined.

(** C8 as stated fails: on return AX of bank 0, which held 0x0a01, holds the
    high word of the result. *)
Lemma mulsi3_changes_bank0_working_registers :
  exists s', ___mulsi3 0 0 17 (demo_state 3 5) = Some s' /\
             ~ only_result_changed (demo_state 3 5) s'.
Proof.
  destruct (mulsi3_full 0 0 17 (demo_state 3 5) ltac:(lia)) as (s' & Hrun & _).
  exists s'. split; [exact Hrun|].
  intros H. specialize (H RB0 AX eq_refl).
  vm_compute in Hrun. injection Hrun as <-. vm_compute in H. discriminate H.
Qed.

Lemma mulsi3_preserves_caller_registers_witness :
  (16 < 17)%nat /\
  0 <= read r16 (demo_state 3 5) < 65536 /\
  0 <= read r18 (demo_state 3 5) < 65536 /\
  exists s', ___mulsi3 0 0 17 (demo_state 3 5) = Some s' /\
    read r16 s' = read r16 (demo_state 3 5) /\
    read r18 s' = read r18 (demo_state 3 5) /\
    (forall b r, mulsi3_scratch b r = false ->
                 REG s' b r = REG (demo_state 3 5) b r) /\
    RBS s' = RB0 /\ SP s' = w16 (SP (demo_state 3 5) + 4) /\
    (forall a, ~ below (SP (demo_state 3 5)) 8 a ->
               MEM s' a = MEM (demo_state 3 5) a).
Proof.
  split; [lia|]. split; [cbn; lia|]. split; [cbn; lia|].
  apply (mulsi3_preserves_caller_registers 0 0 17 (demo_state 3 5));
    [lia | cbn; lia | cbn; lia].
Defined.

Lemma f1_stores_shifted_elements_witness :
  (forall a b, 0 <= a < 3 -> 0 <= b < 3 -> 0 + a <> 100 + b) /\
  let h' := f1 3 0 100 demo_heap in
  stores h' =
    stores demo_heap ++
    map (fun i => (100 + i, int32 (load demo_heap (0 + i) * 8)))
        (span 0 (Z.to_nat 3)) /\
  (forall i, 0 <= i < 3 ->
     load h' (100 + i) = int32 (load demo_heap (0 + i) * 8) /\
     load h' (0 + i) = load demo_heap (0 + i)) /\
  (forall a, ~ (100 <= a < 100 + 3) -> load h' a = load demo_heap a) /\
  (3 <= 0 -> h' = demo_heap).
Proof.
  split; [intros; lia|].
  apply (f1_stores_shifted_elements 3 0 100 demo_heap). intros; lia.
Defined.

(** C9 as stated fails when the two arrays are the same one: called in place
    on three elements [-1; 0; 1], [f1] stores to [x[0]], [x[1]] and [x[2]],
    and [x[0]] ends as -8. *)
Lemma f1_in_place_writes_to_x :
  map fst (stores (f1 3 0 0 demo_heap)) = [0 + 0; 0 + 1; 0 + 2] /\
  load demo_heap (0 + 0) = -1 /\
  load (f1 3 0 0 demo_heap) (0 + 0) = -8 /\
  ~ (forall i, 0 <= i < 3 ->
       load (f1 3 0 0 demo_heap) (0 + i) = load demo_heap (0 + i)).
Proof.
  assert (E : load (f1 3 0 0 demo_heap) (0 + 0) = -8) by (vm_compute; reflexivity).
  split; [vm_compute; reflexivity|]. split; [reflexivity|]. split; [exact E|].
  intros H. specialize (H 0 ltac:(lia)). rewrite E in H. discriminate H.
Qed.

Lemma test_func_00_sums_c_elements_witness :
  1 <= 3 < 2147483648 /\ (Z.to_nat 3 <= 3)%nat /\
  test_func_00 spec_float binary32_add binary32_zero 3 demo_floats 0 3 =
    (Some (fold_left binary32_add (map demo_floats (span 0 (Z.to_nat 3)))
                     binary32_zero),
     span 0 (Z.to_nat 3)).
Proof.
  split; [lia|]. split; [cbn; lia|].
  apply (test_func_00_sums_c_elements spec_float binary32_add binary32_zero
           3 demo_floats 0 3); [lia | cbn; lia].
Defined.

(* ===================================================================== *)
(** * Further properties of mulsi3.S *)
(* ===================================================================== *)

(** X1.  [.Lmul_hi] does what its comment says, "R8 += AX * BC": entered
    with bank 0 selected it adds the product of AX and BC to R8, modulo 2^16,
    and returns to its caller; it changes AX and BC of bank 0 and R8 and
    nothing else of the registers, and does not write to memory. *)
Theorem Lmul_hi_adds_product_to_R8 fuel s :
  (16 < fuel)%nat -> RBS s = RB0 -> wf_state s ->
  exists s', Lmul_hi fuel s = Some s' /\
    read r8 s' = (read r8 s + read AX s * read BC s) mod 2 ^ 16 /\
    RBS s' = RB0 /\ SP s' = w16 (SP s + 4) /\ MEM s' = MEM s /\
    (forall b r, hi_scratch b r = false -> REG s' b r = REG s b r).
Proof.
  intros Hf Hb (Hreg & _). rewrite !read_reg_bank0 by exact Hb.
  destruct (Lmul_hi_spec 16 fuel s Hf Hb (Hreg RB0 AX) (Hreg RB0 BC))
    as (s' & Hrun & Hacc & Hrng & Hrest).
  { left. rewrite pow2_16. apply Hreg. }
  exists s'. split; [exact Hrun|]. split; [|exact Hrest].
  unfold read. cbn [vreg_bank vreg_pair].
  rewrite <- (w16_small (REG s' RB1 AX)) by (apply Hrng, Hreg). exact Hacc.
Qed.

(** X2.  The number of passes through [.Lmul_hi_loop] is bounded by the bit
    length of the smaller operand, which the compare-and-swap at [.Lmul_hi]
    puts in AX: when one operand is below [2^k], [k+1] passes are enough. *)
Theorem Lmul_hi_passes_bounded_by_smaller_operand (k : nat) s :
  RBS s = RB0 -> wf_state s ->
  read AX s < 2 ^ Z.of_nat k \/ read BC s < 2 ^ Z.of_nat k ->
  exists s', Lmul_hi (S k) s = Some s' /\
    read r8 s' = (read r8 s + read AX s * read BC s) mod 2 ^ 16.
Proof.
  intros Hb (Hreg & _). rewrite !read_reg_bank0 by exact Hb. intros Hk.
  destruct (Lmul_hi_spec k (S k) s ltac:(lia) Hb (Hreg RB0 AX) (Hreg RB0 BC) Hk)
    as (s' & Hrun & Hacc & Hrng & _).
  exists s'. split; [exact Hrun|].
  unfold read. cbn [vreg_bank vreg_pair].
  rewrite <- (w16_small (REG s' RB1 AX)) by (apply Hrng, Hreg). exact Hacc.
Qed.

(** X3.  Each cross-term block of [___mulsi3] adds the product of the two
    words it reads from the stack to R8, modulo 2^16, on every one of its
    paths (skipped, subtracted, or multiplied by [.Lmul_hi]); the call is
    balanced, so SP is as before, and only the four bytes under SP, where the
    return address goes, may be written. *)
Theorem cross_term_adds_product ra oH oL fuel s :
  (16 < fuel)%nat -> RBS s = RB0 -> wf_state s ->
  exists s', cross_term ra oH oL fuel s = Some s' /\
    read r8 s' = (read r8 s + arg16 oL s * arg16 oH s) mod 2 ^ 16 /\
    RBS s' = RB0 /\ SP s' = SP s /\
    (forall a, ~ below (SP s) 4 a -> MEM s' a = MEM s a) /\
    (forall b r, hi_scratch b r = false -> REG s' b r = REG s b r).
Proof.
  intros Hf Hb (Hreg & Hsp).
  pose proof (arg16_range oL s) as HL.
  apply (cross_term_gen ra oH oL 16 fuel s Hb (Hreg RB1 AX) Hsp).
  right. right. right. split; [exact Hf|]. left.
  rewrite pow2_16. unfold arg16, read in HL. lia.
Qed.

(** X4.  The shortcut for a high word of 0xffff (a small negative operand):
    the block does not enter the multiply loop at all, it subtracts the other
    word from R8, which is the same as adding 0xffff times that word; it
    leaves memory and SP alone. *)
Theorem cross_term_ffff_subtracts ra oH oL s :
  RBS s = RB0 -> arg16 oH s = 65535 ->
  exists s', cross_term ra oH oL 0 s = Some s' /\
    read r8 s' = (read r8 s - arg16 oL s) mod 2 ^ 16 /\
    read r8 s' = (read r8 s + arg16 oL s * 65535) mod 2 ^ 16 /\
    MEM s' = MEM s /\ SP s' = SP s /\ RBS s' = RB0.
Proof.
  destruct s as [b R c z sp m]. cbn [RBS]. intros ->.
  unfold arg16, read. cbn [MEM SP]. intros Hh.
  unfold cross_term. exec. rewrite Hh. exec.
  eexists. split; [reflexivity|]. exec.
  split; [reflexivity|]. split; [|repeat split].
  apply subw_is_times_ffff.
Qed.

Lemma hisi_wf_range s : hisi_wf s -> 0 <= acc32 s < 4294967296.
Proof. unfold hisi_wf, acc32. lia. Qed.

(** X5.  One step of [.Lmul_hisi_loop] is a 32-bit shift-and-add over
    register pairs of three banks: the multiplier in AX is halved; if its low
    bit was set the multiplicand BC.0:BC.1 is added to the accumulator R16:R8,
    the carry of the low words going into the high word; the multiplicand is
    doubled, its bit 15 passing from BC.1 to BC.0 through the carry flag.  All
    words stay 16-bit words and bank 0 is selected again. *)
Theorem Lmul_hisi_step_shifts_and_adds s :
  RBS s = RB0 -> wf_state s ->
  let s' := Lmul_hisi_step s in
  read AX s' = read AX s / 2 /\
  acc32 s' = (acc32 s + (read AX s mod 2) * op32 s) mod 2 ^ 32 /\
  op32 s' = (2 * op32 s) mod 2 ^ 32 /\
  ZF s' = (read AX s' =? 0) /\
  RBS s' = RB0 /\ hisi_wf s' /\ SP s' = SP s /\ MEM s' = MEM s.
Proof.
  intros Hb Hwf. cbv zeta.
  pose proof (wf_state_hisi s Hwf) as Hh.
  destruct (Lmul_hisi_step_spec s Hb Hh)
    as (Hb' & Hm & Hz & Hacc & Hop & Hwf' & Hsp & Hmem & _).
  assert (Hax : 0 <= REG s RB0 AX < 65536) by apply Hwf.
  pose proof (shiftr1_le (REG s RB0 AX) ltac:(lia)) as Hle.
  rewrite !read_reg_bank0 by assumption.
  change (2 ^ 32) with 4294967296.
  split; [rewrite Hm; apply shiftr1|].
  split.
  { apply eqm32_small; [apply hisi_wf_range; exact Hwf'|].
    rewrite Hacc, Z.bit0_mod. reflexivity. }
  split.
  { apply eqm32_small; [|exact Hop].
    destruct Hwf' as (_ & _ & H1 & H2). unfold op32. lia. }
  split; [rewrite Hz, Hm; apply cmpw_zero; lia|].
  repeat split; try assumption; apply Hwf'.
Qed.

(** X6.  [.Lmul_hisi_loop] as a whole: R16:R8 += AX * (BC.0:BC.1), modulo
    2^32, within 8 passes, leaving AX zero-tested, memory and SP untouched
    and every register pair outside AX.0, BC.0, R8, R10 and R16 as it was. *)
Theorem Lmul_hisi_loop_adds_product (passes : nat) s :
  (8 <= passes)%nat -> RBS s = RB0 -> wf_state s ->
  exists s', Lmul_hisi_loop passes s = Some s' /\
    acc32 s' = (acc32 s + read AX s * op32 s) mod 2 ^ 32 /\
    RBS s' = RB0 /\ SP s' = SP s /\ MEM s' = MEM s /\
    (forall b r, hisi_scratch b r = false -> REG s' b r = REG s b r).
Proof.
  intros Hp Hb Hwf. rewrite read_reg_bank0 by exact Hb.
  assert (Hax : 0 <= REG s RB0 AX < 65536) by apply Hwf.
  destruct (Lmul_hisi_loop_spec 8 passes s Hp ltac:(lia) Hb (wf_state_hisi s Hwf))
    as (s' & Hrun & Hacc & Hwf' & Hrest); rewrite ?pow4_8; try lia.
  exists s'. split; [exact Hrun|]. split; [|exact Hrest].
  apply eqm32_small; [apply hisi_wf_range; exact Hwf' | exact Hacc].
Qed.

Lemma pow4_S k : 4 ^ Z.of_nat (S k) = 4 * 4 ^ Z.of_nat k.
Proof. rewrite Nat2Z.inj_succ, Z.pow_succ_r by lia. reflexivity. Qed.

Lemma pow4_pos k : 0 < 4 ^ Z.of_nat k.
Proof. apply Z.pow_pos_nonneg; lia. Qed.

Lemma Lmul_hisi_loop_too_short : forall (fuel : nat) s,
  RBS s = RB0 -> hisi_wf s ->
  4 ^ Z.of_nat fuel <= REG s RB0 AX < 65536 ->
  Lmul_hisi_loop fuel s = None.
Proof.
  induction fuel as [|fuel IH]; intros s Hb Hwf Hm; [reflexivity|].
  rewrite Lmul_hisi_loop_S. cbv zeta.
  rewrite pow4_S in Hm. pose proof (pow4_pos fuel) as Hpos.
  destruct (Lmul_hisi_step_spec s Hb Hwf)
    as (Hb1 & Hm1 & Hz1 & _ & _ & Hwf1 & _).
  set (s1 := Lmul_hisi_step s) in *.
  assert (H1 : 2 * 4 ^ Z.of_nat fuel <= Z.shiftr (REG s RB0 AX) 1 <= REG s RB0 AX).
  { rewrite shiftr1. split; [apply Z.div_le_lower_bound; lia|].
    apply Z.div_le_upper_bound; lia. }
  rewrite cmpw_zero in Hz1 by lia. rewrite Hz1.
  destruct (Z.eqb_spec (Z.shiftr (REG s RB0 AX) 1) 0) as [E|_]; [lia|].
  destruct (Lmul_hisi_step_spec s1 Hb1 Hwf1)
    as (Hb2 & Hm2 & Hz2 & _ & _ & Hwf2 & _).
  set (s2 := Lmul_hisi_step s1) in *.
  rewrite Hm1 in Hm2, Hz2.
  assert (H2 : 4 ^ Z.of_nat fuel <= Z.shiftr (Z.shiftr (REG s RB0 AX) 1) 1
               <= Z.shiftr (REG s RB0 AX) 1).
  { rewrite (shiftr1 (Z.shiftr _ 1)). split; [apply Z.div_le_lower_bound; lia|].
    apply Z.div_le_upper_bound; lia. }
  rewrite cmpw_zero in Hz2 by lia. rewrite Hz2.
  destruct (Z.eqb_spec (Z.shiftr (Z.shiftr (REG s RB0 AX) 1) 1) 0) as [E|_]; [lia|].
  cbn [negb]. apply IH; try assumption. rewrite Hm2. lia.
Qed.

(** X7.  The running time of [.Lmul_hisi_loop] is fixed by the bit length of
    the multiplier alone: a multiplier with [4^k <= AX < 4^(k+1)] takes
    exactly [k+1] passes, whatever the multiplicand and the accumulator hold:
    the loop has not returned after [k] passes and returns in the next. *)
Theorem Lmul_hisi_loop_pass_count (k : nat) s :
  RBS s = RB0 -> wf_state s ->
  4 ^ Z.of_nat k <= read AX s < 4 ^ Z.of_nat (S k) ->
  Lmul_hisi_loop k s = None /\
  exists s', Lmul_hisi_loop (S k) s = Some s'.
Proof.
  intros Hb Hwf. rewrite read_reg_bank0 by exact Hb. intros Hm.
  assert (Hax : 0 <= REG s RB0 AX < 65536) by apply Hwf.
  pose proof (wf_state_hisi s Hwf) as Hh. split.
  - apply Lmul_hisi_loop_too_short; try assumption. lia.
  - destruct (Lmul_hisi_loop_spec (S k) (S k) s ltac:(lia) ltac:(lia) Hb Hh)
      as (s' & Hrun & _); try lia.
    exists s'. exact Hrun.
Qed.

(** X8.  [___mulhi3] uses no stack and saves nothing: it does not write to
    memory, it changes AX and BC of bank 0 and R8 and no other register pair
    (R10..R31 in particular keep their values), and it returns with its
    return address popped and bank 0 selected. *)
Theorem mulhi3_leaves_memory_and_other_registers fuel s :
  (16 < fuel)%nat -> RBS s = RB0 ->
  exists s', ___mulhi3 fuel s = Some s' /\
    MEM s' = MEM s /\ SP s' = w16 (SP s + 4) /\ RBS s' = RB0 /\
    (forall b r, hi_scratch b r = false -> REG s' b r = REG s b r) /\
    0 <= read r8 s' < 65536.
Proof.
  intros Hf Hb.
  destruct (___mulhi3_spec fuel s Hf Hb) as (s' & Hrun & Hres & Hb' & Hsp & Hmem & Hfr).
  exists s'. split; [exact Hrun|].
  repeat split; try assumption;
    unfold read; cbn [vreg_bank vreg_pair]; rewrite Hres;
    pose proof (w16_range (arg16 4 s * arg16 6 s)); lia.
Qed.

(** X9.  Operands that fit in 16 bits: when both high words are zero no
    cross term is multiplied, [___mulsi3] returns the full product [a * b],
    which cannot wrap, and it needs only as many passes as half the bit
    length of the smaller operand: [k] passes when that operand is below
    [4^k]. *)
Theorem mulsi3_of_16_bit_operands ret_1 ret_2 (k : nat) s :
  (1 <= k)%nat ->
  arg16 6 s = 0 -> arg16 10 s = 0 ->
  Z.min (arg32 4 s) (arg32 8 s) < 4 ^ Z.of_nat k ->
  exists s', ___mulsi3 ret_1 ret_2 k s = Some s' /\
    R8_R11 s' = arg32 4 s * arg32 8 s.
Proof.
  intros Hk HaH HbH. rewrite !arg32_words.
  change (4 + 2) with 6. change (8 + 2) with 10. rewrite HaH, HbH, !Z.mul_0_r, !Z.add_0_r.
  intros Hmin.
  pose proof (arg16_range 4 s) as R4. pose proof (arg16_range 8 s) as R8.
  destruct (mulsi3_run ret_1 ret_2 0 0 k k s)
    as (s' & Hrun & Rlo & Rhi & Hres & _); try lia.
  exists s'. split; [exact Hrun|].
  rewrite (eqm32_small _ _ (R8_R11_range s' Rlo Rhi) Hres), HaH, HbH.
  replace (arg16 4 s * arg16 8 s + 65536 * (arg16 4 s * 0 + 0 * arg16 8 s))
    with (arg16 4 s * arg16 8 s) by ring.
  apply Z.mod_small. nia.
Qed.

(** X10.  The stack offsets of the body agree with the comments at the
    entry ("A is at [sp+4]", "B is at [sp+8]"): after the two pushes of the
    prologue the four operand words are found eight bytes above the new stack
    pointer, SP is four lower, and R8 and R16 are cleared for the sums. *)
Theorem mulsi3_prologue_keeps_operands_in_reach s k :
  0 <= k <= 10 ->
  let s1 := mulsi3_prologue s in
  arg16 (k + 4) s1 = arg16 k s /\
  SP s1 = w16 (SP s - 4) /\ RBS s1 = RB0 /\
  read r8 s1 = 0 /\ read r16 s1 = 0 /\
  arg16 0 s1 = w16 (read r18 s) /\ arg16 2 s1 = w16 (read r16 s).
Proof.
  intros Hk. cbv zeta.
  destruct (mulsi3_prologue_spec s)
    as (Hb1 & Hsp1 & Hr8 & Hr16 & _ & Hbc & Hax & Hmem1).
  revert Hb1 Hsp1 Hr8 Hr16 Hbc Hax Hmem1.
  generalize (mulsi3_prologue s). intros s1 Hb1 Hsp1 Hr8 Hr16 Hbc Hax Hmem1.
  unfold arg16, read. cbn [vreg_bank vreg_pair].
  split.
  { rewrite (load16_eqaddr (MEM s1) (SP s1 + (k + 4)) (SP s + k))
      by (rewrite Hsp1; clear - Hk; w16_lia).
    apply load16_frame; apply Hmem1; intros (i & Hi & E); clear - Hk Hi E; w16_lia. }
  split; [exact Hsp1|]. split; [exact Hb1|]. split; [exact Hr8|].
  split; [exact Hr16|]. split; [|exact Hax].
  rewrite <- Hbc. apply load16_eqaddr. f_equal. lia.
Qed.

(* ===================================================================== *)
(** * Further properties of the fixtures *)
(* ===================================================================== *)

Lemma f1_loop_step n x y i h :
  i < n ->
  f1_loop n x y i h =
  f1_loop n x y (i + 1) (store h (y + i) (int32 (Z.shiftl (load h (x + i)) 3))).
Proof.
  intros Hlt. rewrite f1_loop_equation_1.
  destruct (Z_lt_dec i n); [reflexivity | lia].
Qed.

Lemma f1_loop_done n x y i h : n <= i -> f1_loop n x y i h = h.
Proof.
  intros Hge. rewrite f1_loop_equation_1.
  destruct (Z_lt_dec i n); [lia | reflexivity].
Qed.

Lemma span_shift y i k : map (fun j => y + j) (span i k) = span (y + i) k.
Proof.
  unfold span. rewrite map_map. apply map_ext. intros a. lia.
Qed.

Lemma f1_loop_addresses : forall (k : nat) n x y i h,
  Z.to_nat (n - i) = k ->
  let h' := f1_loop n x y i h in
  map fst (stores h') = map fst (stores h) ++ span (y + i) k /\
  (forall a, ~ (y + i <= a < y + n) -> load h' a = load h a).
Proof.
  induction k as [|k IH]; intros n x y i h Hk; cbv zeta.
  - rewrite f1_loop_done by lia. cbn [span seq map]. rewrite app_nil_r.
    split; reflexivity.
  - rewrite f1_loop_step by lia.
    destruct (IH n x y (i + 1)
                 (store h (y + i) (int32 (Z.shiftl (load h (x + i)) 3)))
                 ltac:(lia)) as (Hs & Hfr).
    split.
    + rewrite Hs. cbn [stores store]. rewrite map_app, <- app_assoc, span_S.
      cbn [map fst app]. rewrite Z.add_assoc. reflexivity.
    + intros a Ha. rewrite Hfr by lia. unfold load, store. cbn [cell].
      destruct (Z.eqb_spec a (y + i)); [lia | reflexivity].
Qed.

(** X11.  Whatever [x] and [y] are, overlapping or not, [f1] stores to
    [y[0]], [y[1]], ..., [y[n-1]] in this order, once each, and to no other
    address: every cell outside [y[0..n-1]] keeps its contents. *)
Theorem f1_stores_only_into_y n x y h :
  let h' := f1 n x y h in
  map fst (stores h') = map fst (stores h) ++ span y (Z.to_nat n) /\
  (forall a, ~ (y <= a < y + n) -> load h' a = load h a).
Proof.
  cbv zeta. unfold f1.
  destruct (f1_loop_addresses (Z.to_nat n) n x y 0 h) as (Hs & Hfr);
    [f_equal; lia|].
  rewrite Z.add_0_r in Hs. split; [exact Hs|].
  intros a Ha. apply Hfr. lia.
Qed.

Lemma f1_loop_forward : forall (k : nat) n x y i h,
  Z.to_nat (n - i) = k -> 0 <= i ->
  (forall a b, 0 <= b < a -> a < n -> x + a <> y + b) ->
  let h' := f1_loop n x y i h in
  forall j, i <= j < n -> load h' (y + j) = int32 (Z.shiftl (load h (x + j)) 3).
Proof.
  induction k as [|k IH]; intros n x y i h Hk Hi Hfwd; cbv zeta; intros j Hj;
    [lia|].
  rewrite f1_loop_step by lia.
  set (h1 := store h (y + i) (int32 (Z.shiftl (load h (x + i)) 3))).
  destruct (Z.eq_dec j i) as [->|Hne].
  - destruct (f1_loop_addresses k n x y (i + 1) h1 ltac:(lia)) as (_ & Hfr).
    rewrite Hfr by lia. unfold h1, load, store. cbn [cell].
    rewrite Z.eqb_refl. reflexivity.
  - rewrite (IH n x y (i + 1) h1) by (try assumption; lia).
    unfold h1, load, store. cbn [cell].
    destruct (Z.eqb_spec (x + j) (y + i)) as [E|_]; [|reflexivity].
    exfalso. apply (Hfwd j i); lia.
Qed.

Lemma f1_forward_value n x y h :
  (forall a b, 0 <= b < a -> a < n -> x + a <> y + b) ->
  forall i, 0 <= i < n ->
    load (f1 n x y h) (y + i) = int32 (load h (x + i) * 8).
Proof.
  intros Hfwd i Hi. unfold f1.
  rewrite (f1_loop_forward (Z.to_nat n) n x y 0 h) by (try assumption; lia).
  rewrite shl3_times_8. reflexivity.
Qed.

(** X12.  [f1] needs less than disjoint arrays: it is enough that no store
    lands on an element of [x] that is still to be read, that is [y + b] is
    never [x + a] for [b < a].  Then [y[i]] ends up as the shifted entry value
    of [x[i]].  This covers the call in place, [y = x]. *)
Theorem f1_overlap_behind_is_safe n x y h :
  (forall a b, 0 <= b < a -> a < n -> x + a <> y + b) ->
  forall i, 0 <= i < n ->
    load (f1 n x y h) (y + i) = int32 (load h (x + i) * 8).
Proof.
  intros Hfwd i Hi. unfold f1.
  rewrite (f1_loop_forward (Z.to_nat n) n x y 0 h) by (try assumption; lia).
  rewrite shl3_times_8. reflexivity.
Qed.

Lemma int32_times_8_twice a : int32 (int32 (a * 8) * 8) = int32 (a * 64).
Proof. unfold int32. Z.div_mod_to_equations. lia. Qed.

(** X13.  Two calls compose: shifting [x] into [y] and then [y] into [z]
    leaves [z[i] = x[i] << 6] (wrapped to 32 bits), under the condition of
    X12 for each call; in particular for [x = y = z]. *)
Theorem f1_twice_shifts_by_six n x y z h :
  (forall a b, 0 <= b < a -> a < n -> x + a <> y + b) ->
  (forall a b, 0 <= b < a -> a < n -> y + a <> z + b) ->
  forall i, 0 <= i < n ->
    load (f1 n y z (f1 n x y h)) (z + i) = int32 (load h (x + i) * 64).
Proof.
  intros Hxy Hyz i Hi.
  rewrite (f1_forward_value n y z _ Hyz i Hi).
  rewrite (f1_forward_value n x y h Hxy i Hi).
  apply int32_times_8_twice.
Qed.

Lemma span_nil from : span from 0 = [].
Proof. reflexivity. Qed.

Section Float_count.
Variable F : Type.
Variable fadd : F -> F -> F.
Variable fzero : F.

Lemma do_while_short : forall (fuel : nat) m p c r log,
  Z.of_nat fuel <= (c - 1) mod 4294967296 ->
  do_while F fadd fuel m p c r log = (None, log ++ span p fuel).
Proof.
  induction fuel as [|fuel IH]; intros m p c r log Hc; cbn [do_while].
  - rewrite span_nil, app_nil_r. reflexivity.
  - destruct (Z.eqb_spec (int32 (c - 1)) 0) as [E|N].
    + apply int32_zero in E. lia.
    + cbn [negb]. rewrite IH.
      * rewrite span_S, <- app_assoc. reflexivity.
      * unfold int32. Z.div_mod_to_equations. lia.
Qed.

End Float_count.

(** X14.  The number of times [test_func_00] runs its body, for every
    counter: with [--c] wrapping at 32 bits the loop is left after exactly
    [((c - 1) mod 2^32) + 1] iterations, that is [c] for [c >= 1] and
    [2^32 + c] for [c <= 0]; before that it has returned nothing and has
    dereferenced one address per iteration, [p], [p+1], ... *)
Theorem test_func_00_iteration_count
        (F : Type) (fadd : F -> F -> F) (fzero : F) (fuel : nat) m p c :
  let N := (c - 1) mod 2 ^ 32 + 1 in
  test_func_00 F fadd fzero fuel m p c =
    if Z.of_nat fuel <? N then (None, span p fuel)
    else (Some (fold_left fadd (map m (span p (Z.to_nat N))) fzero),
          span p (Z.to_nat N)).
Proof.
  cbv zeta. change (2 ^ 32) with 4294967296. unfold test_func_00.
  pose proof (Z.mod_pos_bound (c - 1) 4294967296 ltac:(lia)) as Hr.
  destruct (Z.ltb_spec (Z.of_nat fuel) ((c - 1) mod 4294967296 + 1)) as [Hlt|Hge].
  - rewrite do_while_short by lia. reflexivity.
  - replace (Z.to_nat ((c - 1) mod 4294967296 + 1))
      with (S (Z.to_nat ((c - 1) mod 4294967296))) by lia.
    apply do_while_runs; lia.
Qed.

(** ** The further properties at concrete inputs *)

Lemma Lmul_hi_adds_product_to_R8_witness :
  (16 < 17)%nat /\ RBS (demo_state 3 5) = RB0 /\ wf_state (demo_state 3 5) /\
  exists s', Lmul_hi 17 (demo_state 3 5) = Some s' /\
    read r8 s' =
      (read r8 (demo_state 3 5) +
       read AX (demo_state 3 5) * read BC (demo_state 3 5)) mod 2 ^ 16 /\
    RBS s' = RB0 /\ SP s' = w16 (SP (demo_state 3 5) + 4) /\
    MEM s' = MEM (demo_state 3 5) /\
    (forall b r, hi_scratch b r = false -> REG s' b r = REG (demo_state 3 5) b r).
Proof.
  split; [lia|]. split; [reflexivity|]. split; [apply demo_state_wf|].
  apply (Lmul_hi_adds_product_to_R8 17 (demo_state 3 5));
    [lia | reflexivity | apply demo_state_wf].
Defined.

Lemma Lmul_hi_passes_bounded_by_smaller_operand_witness :
  RBS (demo_state 3 5) = RB0 /\ wf_state (demo_state 3 5) /\
  (read AX (demo_state 3 5) < 2 ^ Z.of_nat 12 \/
   read BC (demo_state 3 5) < 2 ^ Z.of_nat 12) /\
  exists s', Lmul_hi 13 (demo_state 3 5) = Some s' /\
    read r8 s' =
      (read r8 (demo_state 3 5) +
       read AX (demo_state 3 5) * read BC (demo_state 3 5)) mod 2 ^ 16.
Proof.
  split; [reflexivity|]. split; [apply demo_state_wf|].
  split; [left; vm_compute; reflexivity|].
  apply (Lmul_hi_passes_bounded_by_smaller_operand 12 (demo_state 3 5));
    [reflexivity | apply demo_state_wf | left; vm_compute; reflexivity].
Defined.

Lemma cross_term_adds_product_witness :
  (16 < 17)%nat /\ RBS (demo_state 0x12345678 0x9abcdef0) = RB0 /\
  wf_state (demo_state 0x12345678 0x9abcdef0) /\
  exists s', cross_term 0 10 4 17 (demo_state 0x12345678 0x9abcdef0) = Some s' /\
    read r8 s' =
      (read r8 (demo_state 0x12345678 0x9abcdef0) +
       arg16 4 (demo_state 0x12345678 0x9abcdef0) *
       arg16 10 (demo_state 0x12345678 0x9abcdef0)) mod 2 ^ 16 /\
    RBS s' = RB0 /\ SP s' = SP (demo_state 0x12345678 0x9abcdef0) /\
    (forall a, ~ below (SP (demo_state 0x12345678 0x9abcdef0)) 4 a ->
               MEM s' a = MEM (demo_state 0x12345678 0x9abcdef0) a) /\
    (forall b r, hi_scratch b r = false ->
                 REG s' b r = REG (demo_state 0x12345678 0x9abcdef0) b r).
Proof.
  split; [lia|]. split; [reflexivity|]. split; [apply demo_state_wf|].
  apply (cross_term_adds_product 0 10 4 17 (demo_state 0x12345678 0x9abcdef0));
    [lia | reflexivity | apply demo_state_wf].
Defined.

Lemma cross_term_ffff_subtracts_witness :
  RBS (demo_state 7 0xffff0003) = RB0 /\
  arg16 10 (demo_state 7 0xffff0003) = 65535 /\
  exists s', cross_term 0 10 4 0 (demo_state 7 0xffff0003) = Some s' /\
    read r8 s' =
      (read r8 (demo_state 7 0xffff0003) - arg16 4 (demo_state 7 0xffff0003))
        mod 2 ^ 16 /\
    read r8 s' =
      (read r8 (demo_state 7 0xffff0003) +
       arg16 4 (demo_state 7 0xffff0003) * 65535) mod 2 ^ 16 /\
    MEM s' = MEM (demo_state 7 0xffff0003) /\
    SP s' = SP (demo_state 7 0xffff0003) /\ RBS s' = RB0.
Proof.
  split; [reflexivity|]. split; [reflexivity|].
  apply (cross_term_ffff_subtracts 0 10 4 (demo_state 7 0xffff0003));
    reflexivity.
Defined.

Lemma Lmul_hisi_step_shifts_and_adds_witness :
  RBS (demo_state 3 5) = RB0 /\ wf_state (demo_state 3 5) /\
  let s := demo_state 3 5 in
  let s' := Lmul_hisi_step s in
  read AX s' = read AX s / 2 /\
  acc32 s' = (acc32 s + (read AX s mod 2) * op32 s) mod 2 ^ 32 /\
  op32 s' = (2 * op32 s) mod 2 ^ 32 /\
  ZF s' = (read AX s' =? 0) /\
  RBS s' = RB0 /\ hisi_wf s' /\ SP s' = SP s /\ MEM s' = MEM s.
Proof.
  split; [reflexivity|]. split; [apply demo_state_wf|].
  apply (Lmul_hisi_step_shifts_and_adds (demo_state 3 5));
    [reflexivity | apply demo_state_wf].
Defined.

Lemma Lmul_hisi_loop_adds_product_witness :
  (8 <= 8)%nat /\ RBS (demo_state 3 5) = RB0 /\ wf_state (demo_state 3 5) /\
  exists s', Lmul_hisi_loop 8 (demo_state 3 5) = Some s' /\
    acc32 s' =
      (acc32 (demo_state 3 5) +
       read AX (demo_state 3 5) * op32 (demo_state 3 5)) mod 2 ^ 32 /\
    RBS s' = RB0 /\ SP s' = SP (demo_state 3 5) /\
    MEM s' = MEM (demo_state 3 5) /\
    (forall b r, hisi_scratch b r = false ->
                 REG s' b r = REG (demo_state 3 5) b r).
Proof.
  split; [lia|]. split; [reflexivity|]. split; [apply demo_state_wf|].
  apply (Lmul_hisi_loop_adds_product 8 (demo_state 3 5));
    [lia | reflexivity | apply demo_state_wf].
Defined.

Lemma Lmul_hisi_loop_pass_count_witness :
  RBS (demo_state 3 5) = RB0 /\ wf_state (demo_state 3 5) /\
  4 ^ Z.of_nat 5 <= read AX (demo_state 3 5) < 4 ^ Z.of_nat 6 /\
  Lmul_hisi_loop 5 (demo_state 3 5) = None /\
  exists s', Lmul_hisi_loop 6 (demo_state 3 5) = Some s'.
Proof.
  split; [reflexivity|]. split; [apply demo_state_wf|].
  split; [vm_compute; split; [discriminate | reflexivity]|].
  apply (Lmul_hisi_loop_pass_count 5 (demo_state 3 5));
    [reflexivity | apply demo_state_wf
     | vm_compute; split; [discriminate | reflexivity]].
Defined.

Lemma mulhi3_leaves_memory_and_other_registers_witness :
  (16 < 17)%nat /\ RBS (demo_state16 300 200) = RB0 /\
  exists s', ___mulhi3 17 (demo_state16 300 200) = Some s' /\
    MEM s' = MEM (demo_state16 300 200) /\
    SP s' = w16 (SP (demo_state16 300 200) + 4) /\ RBS s' = RB0 /\
    (forall b r, hi_scratch b r = false ->
                 REG s' b r = REG (demo_state16 300 200) b r) /\
    0 <= read r8 s' < 65536.
Proof.
  split; [lia|]. split; [reflexivity|].
  apply (mulhi3_leaves_memory_and_other_registers 17 (demo_state16 300 200));
    [lia | reflexivity].
Defined.

Lemma mulsi3_of_16_bit_operands_witness :
  (1 <= 4)%nat /\
  arg16 6 (demo_state 300 200) = 0 /\ arg16 10 (demo_state 300 200) = 0 /\
  Z.min (arg32 4 (demo_state 300 200)) (arg32 8 (demo_state 300 200))
    < 4 ^ Z.of_nat 4 /\
  exists s', ___mulsi3 0 0 4 (demo_state 300 200) = Some s' /\
    R8_R11 s' = arg32 4 (demo_state 300 200) * arg32 8 (demo_state 300 200).
Proof.
  split; [lia|]. split; [reflexivity|]. split; [reflexivity|].
  split; [vm_compute; reflexivity|].
  apply (mulsi3_of_16_bit_operands 0 0 4 (demo_state 300 200));
    [lia | reflexivity | reflexivity | vm_compute; reflexivity].
Defined.

Lemma mulsi3_prologue_keeps_operands_in_reach_witness :
  0 <= 4 <= 10 /\
  let s := demo_state 0x12345678 0x9abcdef0 in
  let s1 := mulsi3_prologue s in
  arg16 (4 + 4) s1 = arg16 4 s /\
  SP s1 = w16 (SP s - 4) /\ RBS s1 = RB0 /\
  read r8 s1 = 0 /\ read r16 s1 = 0 /\
  arg16 0 s1 = w16 (read r18 s) /\ arg16 2 s1 = w16 (read r16 s).
Proof.
  split; [lia|].
  apply (mulsi3_prologue_keeps_operands_in_reach
           (demo_state 0x12345678 0x9abcdef0) 4). lia.
Defined.

Lemma f1_overlap_behind_is_safe_witness :
  (forall a b, 0 <= b < a -> a < 3 -> 0 + a <> 0 + b) /\
  0 <= 1 < 3 /\
  load (f1 3 0 0 demo_heap) (0 + 1) = int32 (load demo_heap (0 + 1) * 8).
Proof.
  split; [intros; lia|]. split; [lia|].
  apply (f1_overlap_behind_is_safe 3 0 0 demo_heap); [intros; lia | lia].
Defined.

Lemma f1_twice_shifts_by_six_witness :
  (forall a b, 0 <= b < a -> a < 3 -> 0 + a <> 100 + b) /\
  (forall a b, 0 <= b < a -> a < 3 -> 100 + a <> 100 + b) /\
  0 <= 2 < 3 /\
  load (f1 3 100 100 (f1 3 0 100 demo_heap)) (100 + 2) =
    int32 (load demo_heap (0 + 2) * 64).
Proof.
  split; [intros; lia|]. split; [intros; lia|]. split; [lia|].
  apply (f1_twice_shifts_by_six 3 0 100 100 demo_heap);
    [intros; lia | intros; lia | lia].
Defined.
